(** * The events backend (application.py): model and verified properties

    The program is a Flask application with four routes over one MySQL
    table.  The embedding follows the source function by function.  The
    interpreter's exceptions and its finalisation of connection objects,
    the process environment, the JSON parser behind the request, the
    pymysql driver and the MySQL server are part of an explicit [world]
    that every function threads; a raised exception keeps the effects
    performed before it, as in Python. *)

From Stdlib Require Import String Ascii List ZArith Bool Lia SpecFloat.
Import ListNotations.
Set Warnings "-register-all".
Local Open Scope string_scope.
Local Open Scope list_scope.

(* ================================================================== *)
(** * Python values exchanged as JSON *)

(** What [request.get_json] can return and what [jsonify] serialises.
    [JNull] is Python's [None]; an object is the item list of the parsed
    dict, looked up by key.  A text is held as the bytes of its UTF-8
    encoding; a lone surrogate, which an escape such as \ud800 puts into
    a parsed string and UTF-8 proper cannot hold, as the three bytes the
    same scheme gives it (ED, then A0..BF, then 80..BF). *)
Inductive json : Type :=
| JNull
| JBool (b : bool)
| JInt (n : Z)
| JFloat (f : spec_float)
| JStr (s : string)
| JArr (l : list json)
| JObj (items : list (string * json)).

(** Truth value of an object, as tested by [not x] and [x or y]. *)
Definition truthy (v : json) : bool :=
  match v with
  | JNull => false
  | JBool b => b
  | JInt n => negb (Z.eqb n 0)
  | JFloat (S754_zero _) => false
  | JFloat _ => true
  | JStr s => negb (String.eqb s "")
  | JArr l => match l with [] => false | _ => true end
  | JObj items => match items with [] => false | _ => true end
  end.

(** [x or y] *)
Definition py_or (x y : json) : json := if truthy x then x else y.

(** [type(x).__name__], used in the text of attribute errors. *)
Definition type_name (v : json) : string :=
  match v with
  | JNull => "NoneType"
  | JBool _ => "bool"
  | JInt _ => "int"
  | JFloat _ => "float"
  | JStr _ => "str"
  | JArr _ => "list"
  | JObj _ => "dict"
  end.

Fixpoint assoc {A : Type} (k : string) (l : list (string * A)) : option A :=
  match l with
  | [] => None
  | (k', v) :: rest => if String.eqb k k' then Some v else assoc k rest
  end.

(** [d.get(k)] on a dict: the value, or [None]. *)
Definition dict_get (items : list (string * json)) (k : string) : json :=
  match assoc k items with
  | Some v => v
  | None => JNull
  end.

(* ================================================================== *)
(** * Exceptions *)

(** The exception classes of pymysql.err (DB-API 2.0). *)
Inductive dbapi_class : Type :=
| MySQLError | DBWarning | DBError | InterfaceError | DatabaseError
| DataError | OperationalError | IntegrityError | InternalError
| ProgrammingError | NotSupportedError.

(** The classes that occur in the program: the built-in ones it names or
    provokes, those the JSON parser and the driver's encoder end with,
    and the driver's own. *)
Inductive exn_class : Type :=
| Exception
| OSError
| ConnectionError
| RuntimeError
| NotImplementedError
| RecursionError
| NameError
| AttributeError
| TypeError
| ValueError
| UnicodeError
| UnicodeEncodeError
| Driver (c : dbapi_class).

(** [EnvironmentError] is an alias of [OSError]. *)
Definition EnvironmentError : exn_class := OSError.

Definition dbapi_parent (c : dbapi_class) : option dbapi_class :=
  match c with
  | MySQLError => None
  | DBWarning => Some MySQLError
  | DBError => Some MySQLError
  | InterfaceError => Some DBError
  | DatabaseError => Some DBError
  | DataError | OperationalError | IntegrityError | InternalError
  | ProgrammingError | NotSupportedError => Some DatabaseError
  end.

(** Direct base class. *)
Definition parent (c : exn_class) : option exn_class :=
  match c with
  | Exception => None
  | OSError => Some Exception
  | ConnectionError => Some OSError
  | RuntimeError => Some Exception
  | NotImplementedError => Some RuntimeError
  | RecursionError => Some RuntimeError
  | NameError => Some Exception
  | AttributeError => Some Exception
  | TypeError => Some Exception
  | ValueError => Some Exception
  | UnicodeError => Some ValueError
  | UnicodeEncodeError => Some UnicodeError
  | Driver d =>
      match dbapi_parent d with
      | Some p => Some (Driver p)
      | None => Some Exception
      end
  end.

Definition dbapi_eqb (a b : dbapi_class) : bool :=
  match a, b with
  | MySQLError, MySQLError | DBWarning, DBWarning | DBError, DBError
  | InterfaceError, InterfaceError | DatabaseError, DatabaseError
  | DataError, DataError | OperationalError, OperationalError
  | IntegrityError, IntegrityError | InternalError, InternalError
  | ProgrammingError, ProgrammingError
  | NotSupportedError, NotSupportedError => true
  | _, _ => false
  end.

Definition class_eqb (a b : exn_class) : bool :=
  match a, b with
  | Exception, Exception | OSError, OSError
  | ConnectionError, ConnectionError | RuntimeError, RuntimeError
  | NotImplementedError, NotImplementedError
  | RecursionError, RecursionError | NameError, NameError
  | AttributeError, AttributeError | TypeError, TypeError
  | ValueError, ValueError | UnicodeError, UnicodeError
  | UnicodeEncodeError, UnicodeEncodeError => true
  | Driver x, Driver y => dbapi_eqb x y
  | _, _ => false
  end.

(** [issubclass c d], climbing the base classes; the hierarchy is five
    levels deep at most. *)
Fixpoint issubclass_fuel (fuel : nat) (c d : exn_class) : bool :=
  class_eqb c d ||
  match fuel with
  | O => false
  | S n =>
      match parent c with
      | Some p => issubclass_fuel n p d
      | None => false
      end
  end.

Definition issubclass : exn_class -> exn_class -> bool := issubclass_fuel 6.

(** A raised exception: its class and [str(e)]. *)
Record exception : Type := mk_exn { exn_cls : exn_class; exn_msg : string }.

(** [isinstance(e, cls)]: what an [except cls] clause tests. *)
Definition isinstance (e : exception) (cls : exn_class) : bool :=
  issubclass (exn_cls e) cls.

(* ================================================================== *)
(** * Calendar dates and DATE_FORMAT *)

(** The server's view of a DATE value and of the one function the
    program applies to it.  Only the four specifiers of the program's
    format string are interpreted; any other character after a percent
    sign stands for itself, as the server does. *)

Record date : Type := mk_date { year : Z; month : Z; day : Z }.

Definition is_leap (y : Z) : bool :=
  ((y mod 4 =? 0) && negb (y mod 100 =? 0) || (y mod 400 =? 0))%Z.

Definition days_in_month (y m : Z) : Z :=
  if (m =? 2)%Z then (if is_leap y then 29 else 28)%Z
  else if ((m =? 4) || (m =? 6) || (m =? 9) || (m =? 11))%Z then 30%Z
  else 31%Z.

Definition valid_date (d : date) : bool :=
  ((0 <=? year d) && (year d <=? 9999) &&
   (1 <=? month d) && (month d <=? 12) &&
   (1 <=? day d) && (day d <=? days_in_month (year d) (month d)))%Z.

(** Days since 1970-01-01 in the proleptic Gregorian calendar. *)
Definition days_from_civil (d : date) : Z :=
  let y := (if month d <=? 2 then year d - 1 else year d)%Z in
  let era := (y / 400)%Z in
  let yoe := (y - era * 400)%Z in
  let mp := (if month d <=? 2 then month d + 9 else month d - 3)%Z in
  let doy := ((153 * mp + 2) / 5 + day d - 1)%Z in
  let doe := (yoe * 365 + yoe / 4 - yoe / 100 + doy)%Z in
  (era * 146097 + doe - 719468)%Z.

(** 0 is Sunday; 1970-01-01 was a Thursday. *)
Definition weekday (d : date) : Z := ((days_from_civil d + 4) mod 7)%Z.

Definition weekday_abbrev (n : Z) : string :=
  nth (Z.to_nat n) ["Sun"; "Mon"; "Tue"; "Wed"; "Thu"; "Fri"; "Sat"] "".

Definition month_abbrev (m : Z) : string :=
  nth (Z.to_nat (m - 1))
      ["Jan"; "Feb"; "Mar"; "Apr"; "May"; "Jun";
       "Jul"; "Aug"; "Sep"; "Oct"; "Nov"; "Dec"] "".

Definition digit_char (n : Z) : ascii := ascii_of_nat (48 + Z.to_nat (n mod 10)).

Definition two_digits (n : Z) : string :=
  String (digit_char (n / 10)) (String (digit_char n) "").

Definition four_digits (n : Z) : string :=
  String (digit_char (n / 1000)) (String (digit_char (n / 100)) (two_digits n)).

Definition format_specifier (d : date) (c : ascii) : string :=
  if Ascii.eqb c "a" then weekday_abbrev (weekday d)
  else if Ascii.eqb c "d" then two_digits (day d)
  else if Ascii.eqb c "b" then month_abbrev (month d)
  else if Ascii.eqb c "Y" then four_digits (year d)
  else String c "".

Fixpoint date_format (d : date) (fmt : string) : string :=
  match fmt with
  | EmptyString => ""
  | String c rest =>
      if Ascii.eqb c "%" then
        match rest with
        | String s rest' => format_specifier d s ++ date_format d rest'
        | EmptyString => String c ""
        end
      else String c (date_format d rest)
  end.

Definition digit_of (c : ascii) : option Z :=
  let n := nat_of_ascii c in
  if (48 <=? n)%nat && (n <=? 57)%nat then Some (Z.of_nat (n - 48)) else None.

Fixpoint number_of (cs : list ascii) (acc : Z) : option Z :=
  match cs with
  | [] => Some acc
  | c :: rest =>
      match digit_of c with
      | Some n => number_of rest (acc * 10 + n)%Z
      | None => None
      end
  end.

(** A date literal in the form YYYY-MM-DD. *)
Definition parse_date (s : string) : option date :=
  match list_ascii_of_string s with
  | [y1; y2; y3; y4; s1; m1; m2; s2; d1; d2] =>
      if Ascii.eqb s1 "-" && Ascii.eqb s2 "-" then
        match number_of [y1; y2; y3; y4] 0, number_of [m1; m2] 0, number_of [d1; d2] 0 with
        | Some y, Some m, Some d =>
            let r := mk_date y m d in
            if valid_date r then Some r else None
        | _, _, _ => None
        end
      else None
  | _ => None
  end.

(* ================================================================== *)
(** * The MySQL server: the events table and the three statements *)

(** The server is not part of the repository.  It is modelled as far as
    the program depends on it: the table of the CREATE statement, the
    transaction of a connection, the grammar of a select list, the
    resolution of ORDER BY keys and the DATE_FORMAT function, each as
    the server's manual describes it. *)

(** A row of [events].  A cell holds the value the statement supplied
    for it ([JNull] is SQL NULL); [ev_id] is the AUTO_INCREMENT key.
    What a column's type does to a value (a text cut to 255 characters
    or refused, a text that is no date, a counter at the end of INT) is
    not computed: whether the server takes the values as they are is
    part of the reply scheduled for the statement (see [schedule]). *)
Record event_row : Type := mk_row {
  ev_id : Z;
  ev_title : json;
  ev_description : json;
  ev_image_url : json;
  ev_date : json;
  ev_location : json
}.

(** Server state: whether the table exists, its committed rows, the
    AUTO_INCREMENT counter, and the rows inserted on a connection whose
    transaction is still open. *)
Record database : Type := mk_db {
  table_exists : bool;
  rows : list event_row;
  next_id : Z;
  pending : list (nat * event_row)
}.

(** Tokens of a select list.  A DATE_FORMAT call is one expression. *)
Inductive sql_token : Type :=
| TComma
| TAs
| TIdent (name : string)
| TDateFormat (column : string) (fmt : string).

Record select_query : Type := mk_select {
  sel_list : list sql_token;
  sel_order_by : list string          (* each key ascending *)
}.

(** The statements the program sends. *)
Inductive statement : Type :=
| CreateTableIfNotExists
| InsertEvent (title description image_url date_ location : json)
| Select (q : select_query).

(** A failure reported by the driver, on its own account or the
    server's: an instance of one of the DB-API classes, with [str(e)].
    [fault_applied] tells whether the server had carried the request out
    when the call failed: the reply was lost on its way back. *)
Record fault : Type := mk_fault {
  fault_cls : dbapi_class;
  fault_msg : string;
  fault_applied : bool
}.

Definition fault_exn (f : fault) : exception :=
  mk_exn (Driver (fault_cls f)) (fault_msg f).

(** ** Parsing the select list

    [select_expr ::= expr [[AS] alias]], items separated by commas. *)

Inductive select_expr : Type :=
| EColumn (name : string)
| EDateFormat (column : string) (fmt : string).

Record select_item : Type := mk_item { item_expr : select_expr; item_name : string }.

Fixpoint split_commas (ts : list sql_token) (cur : list sql_token)
  : list (list sql_token) :=
  match ts with
  | [] => [rev cur]
  | TComma :: rest => rev cur :: split_commas rest []
  | t :: rest => split_commas rest (t :: cur)
  end.

Definition expr_of_token (t : sql_token) : option select_expr :=
  match t with
  | TIdent c => Some (EColumn c)
  | TDateFormat c f => Some (EDateFormat c f)
  | _ => None
  end.

(** The column heading of an expression without alias. *)
Definition expr_text (e : select_expr) : string :=
  match e with
  | EColumn c => c
  | EDateFormat c f => "DATE_FORMAT(`" ++ c ++ "`, '" ++ f ++ "')"
  end.

Definition parse_item (ts : list sql_token) : option select_item :=
  match ts with
  | [t] => option_map (fun e => mk_item e (expr_text e)) (expr_of_token t)
  | [t; TIdent a] => option_map (fun e => mk_item e a) (expr_of_token t)
  | [t; TAs; TIdent a] => option_map (fun e => mk_item e a) (expr_of_token t)
  | _ => None
  end.

Fixpoint parse_items (items : list (list sql_token)) : option (list select_item) :=
  match items with
  | [] => Some []
  | i :: rest =>
      match parse_item i, parse_items rest with
      | Some x, Some xs => Some (x :: xs)
      | _, _ => None
      end
  end.

Definition parse_select_list (ts : list sql_token) : option (list select_item) :=
  parse_items (split_commas ts []).

(** ** Evaluating a select *)

Definition column_value (r : event_row) (c : string) : option json :=
  if String.eqb c "id" then Some (JInt (ev_id r))
  else if String.eqb c "title" then Some (ev_title r)
  else if String.eqb c "description" then Some (ev_description r)
  else if String.eqb c "image_url" then Some (ev_image_url r)
  else if String.eqb c "date" then Some (ev_date r)
  else if String.eqb c "location" then Some (ev_location r)
  else None.

(** DATE_FORMAT of a cell: NULL for NULL and for what is not a date. *)
Definition date_format_cell (v : json) (fmt : string) : json :=
  match v with
  | JStr s =>
      match parse_date s with
      | Some d => JStr (date_format d fmt)
      | None => JNull
      end
  | _ => JNull
  end.

Definition eval_expr (r : event_row) (e : select_expr) : option json :=
  match e with
  | EColumn c => column_value r c
  | EDateFormat c f => option_map (fun v => date_format_cell v f) (column_value r c)
  end.

Fixpoint project (r : event_row) (items : list select_item)
  : option (list (string * json)) :=
  match items with
  | [] => Some []
  | i :: rest =>
      match eval_expr r (item_expr i), project r rest with
      | Some v, Some vs => Some ((item_name i, v) :: vs)
      | _, _ => None
      end
  end.

(** An ORDER BY key names a select item (by alias or heading) before it
    names a column of the table. *)
Definition order_key (items : list select_item) (r : event_row) (k : string)
  : option json :=
  match find (fun i => String.eqb (item_name i) k) items with
  | Some i => eval_expr r (item_expr i)
  | None => column_value r k
  end.

Fixpoint order_keys (items : list select_item) (r : event_row) (ks : list string)
  : option (list json) :=
  match ks with
  | [] => Some []
  | k :: rest =>
      match order_key items r k, order_keys items r rest with
      | Some v, Some vs => Some (v :: vs)
      | _, _ => None
      end
  end.

(** Ascending order on cells: NULL first, numbers by value, text by
    character code. *)
Definition cell_rank (v : json) : Z :=
  match v with
  | JNull => 0 | JBool _ => 1 | JInt _ => 1 | JFloat _ => 2
  | JStr _ => 3 | JArr _ => 4 | JObj _ => 5
  end%Z.

Definition cell_compare (a b : json) : comparison :=
  match a, b with
  | JInt x, JInt y => Z.compare x y
  | JStr x, JStr y => String.compare x y
  | _, _ => Z.compare (cell_rank a) (cell_rank b)
  end.

Fixpoint keys_compare (a b : list json) : comparison :=
  match a, b with
  | x :: a', y :: b' =>
      match cell_compare x y with
      | Eq => keys_compare a' b'
      | c => c
      end
  | _, _ => Eq
  end.

Definition keyed (A : Type) : Type := (list json * A)%type.

Fixpoint insert_sorted {A : Type} (x : keyed A) (l : list (keyed A)) : list (keyed A) :=
  match l with
  | [] => [x]
  | y :: rest =>
      match keys_compare (fst x) (fst y) with
      | Lt => x :: y :: rest
      | _ => y :: insert_sorted x rest
      end
  end.

(** Stable: equal keys keep the order of the input. *)
Definition sort_keyed {A : Type} (l : list (keyed A)) : list (keyed A) :=
  fold_left (fun acc x => insert_sorted x acc) l [].

Fixpoint keyed_rows (items : list select_item) (ks : list string) (rs : list event_row)
  : option (list (keyed (list (string * json)))) :=
  match rs with
  | [] => Some []
  | r :: rest =>
      match order_keys items r ks, project r items, keyed_rows items ks rest with
      | Some k, Some p, Some xs => Some ((k, p) :: xs)
      | _, _, _ => None
      end
  end.

Definition syntax_error : fault :=
  mk_fault ProgrammingError "(1064, 'You have an error in your SQL syntax')" false.
Definition no_such_table : fault :=
  mk_fault ProgrammingError "(1146, 'Table events does not exist')" false.
Definition unknown_column : fault :=
  mk_fault OperationalError "(1054, 'Unknown column')" false.
Definition column_cannot_be_null : fault :=
  mk_fault IntegrityError "(1048, 'Column cannot be null')" false.

Definition run_select (q : select_query) (d : database)
  : fault + list (list (string * json)) :=
  match parse_select_list (sel_list q) with
  | None => inl syntax_error
  | Some items =>
      if table_exists d then
        match keyed_rows items (sel_order_by q) (rows d) with
        | Some krs => inr (map snd (sort_keyed krs))
        | None => inl unknown_column
        end
      else inl no_such_table
  end.

Definition is_null (v : json) : bool :=
  match v with JNull => true | _ => false end.

(** Ending a transaction: the rows a connection inserted become part of
    the table, or are dropped. *)
Definition commit_pending (c : nat) (d : database) : database :=
  mk_db (table_exists d)
        (rows d ++ map snd (filter (fun p => Nat.eqb (fst p) c) (pending d)))
        (next_id d)
        (filter (fun p => negb (Nat.eqb (fst p) c)) (pending d)).

Definition rollback_pending (c : nat) (d : database) : database :=
  mk_db (table_exists d) (rows d) (next_id d)
        (filter (fun p => negb (Nat.eqb (fst p) c)) (pending d)).

(** The server's answer to a statement received on connection [c]: a
    failure, or the new state and the result set. *)
Definition server_execute (c : nat) (s : statement) (d : database)
  : fault + (database * list (list (string * json))) :=
  match s with
  | CreateTableIfNotExists =>
      (* data definition ends the open transaction *)
      let d' := commit_pending c d in
      inr (mk_db true (rows d') (next_id d') (pending d'), [])
  | InsertEvent t de im da lo =>
      if negb (table_exists d) then inl no_such_table
      else if is_null t || is_null da then inl column_cannot_be_null
      else
        let r := mk_row (next_id d) t de im da lo in
        inr (mk_db true (rows d) (next_id d + 1)%Z (pending d ++ [(c, r)]), [])
  | Select q =>
      match run_select q d with
      | inl f => inl f
      | inr rs => inr (d, rs)
      end
  end.

(* ================================================================== *)
(** * The world a request runs in *)

Inductive driver_call : Type :=
| CallConnect (host user password db_name : string)
| CallExecute (c : nat) (s : statement)
| CallCommit (c : nat)
| CallClose (c : nat).

Inductive log_level : Type := INFO | ERROR.

(** [environ] is [os.environ].  [schedule] fixes the outcome of the
    successive round trips of the driver (connect, execute, commit):
    [None], or an exhausted schedule, lets the call go through, the
    server taking the request as this model evaluates it; [Some f] makes
    the call fail with [f], be it a refusal by the server or a broken
    connection.  [open_conns] are the connections opened and not yet
    closed, [trace] the calls the program made to the driver so far,
    oldest first. *)
Record world : Type := mk_world {
  environ : list (string * string);
  db : database;
  schedule : list (option fault);
  next_conn : nat;
  open_conns : list nat;
  trace : list driver_call;
  app_log : list (log_level * string)
}.

Definition set_db (d : database) (w : world) : world :=
  mk_world (environ w) d (schedule w) (next_conn w) (open_conns w) (trace w) (app_log w).

Definition set_schedule (s : list (option fault)) (w : world) : world :=
  mk_world (environ w) (db w) s (next_conn w) (open_conns w) (trace w) (app_log w).

Definition set_conns (n : nat) (o : list nat) (w : world) : world :=
  mk_world (environ w) (db w) (schedule w) n o (trace w) (app_log w).

Definition record_call (c : driver_call) (w : world) : world :=
  mk_world (environ w) (db w) (schedule w) (next_conn w) (open_conns w)
           (trace w ++ [c]) (app_log w).

Definition record_log (l : log_level) (msg : string) (w : world) : world :=
  mk_world (environ w) (db w) (schedule w) (next_conn w) (open_conns w)
           (trace w) (app_log w ++ [(l, msg)]).

(** ** Computations that may raise *)

Inductive outcome (A : Type) : Type :=
| Returned (a : A)
| Raised (e : exception).
Arguments Returned {A} a.
Arguments Raised {A} e.

Definition M (A : Type) : Type := world -> outcome A * world.

Definition ret {A : Type} (a : A) : M A := fun w => (Returned a, w).

Definition raise {A : Type} (e : exception) : M A := fun w => (Raised e, w).

Definition bind {A B : Type} (m : M A) (k : A -> M B) : M B :=
  fun w =>
    match m w with
    | (Returned a, w') => k a w'
    | (Raised e, w') => (Raised e, w')
    end.

Declare Scope py_scope.
Delimit Scope py_scope with py.
Notation "x <- m ;; k" := (bind m (fun x => k))
  (at level 61, m at next level, right associativity) : py_scope.
Notation "m ;; k" := (bind m (fun _ => k))
  (at level 61, right associativity) : py_scope.
Local Open Scope py_scope.

(** [try: body / except c1 as e: h1 e / except c2 as e: h2 e ...]: the
    first clause whose class the exception is an instance of handles it;
    what a handler raises is not handled by the clauses after it. *)
Fixpoint select_clause {A : Type} (e : exception)
    (clauses : list (exn_class * (exception -> M A))) : M A :=
  match clauses with
  | [] => raise e
  | (cls, handler) :: rest =>
      if isinstance e cls then handler e else select_clause e rest
  end.

Definition try_except {A : Type} (body : M A)
    (clauses : list (exn_class * (exception -> M A))) : M A :=
  fun w =>
    match body w with
    | (Returned a, w') => (Returned a, w')
    | (Raised e, w') => select_clause e clauses w'
    end.

(** [try: body / finally: cleanup]: the cleanup runs on every exit; an
    exception it raises replaces the outcome of the body. *)
Definition try_finally {A : Type} (body : M A) (cleanup : M unit) : M A :=
  fun w =>
    match body w with
    | (r, w') =>
        match cleanup w' with
        | (Returned _, w'') => (r, w'')
        | (Raised e, w'') => (Raised e, w'')
        end
    end.

(** ** Environment and logging *)

(** [os.environ.get(var)] *)
Definition environ_get (var : string) : M (option string) :=
  fun w => (Returned (assoc var (environ w)), w).

Definition logging_info (msg : string) : M unit :=
  fun w => (Returned tt, record_log INFO msg w).

Definition logging_error (msg : string) : M unit :=
  fun w => (Returned tt, record_log ERROR msg w).

(** [logging.exception] logs at level ERROR. *)
Definition logging_exception (msg : string) : M unit :=
  fun w => (Returned tt, record_log ERROR msg w).

(** ** The pymysql driver *)

(** The outcome scheduled for the [n]-th round trip from now. *)
Definition scheduled (n : nat) (w : world) : option fault := nth n (schedule w) None.

Definition advance (w : world) : world := set_schedule (tl (schedule w)) w.

(** One round trip with the server: its scheduled outcome, consumed. *)
Definition round_trip : M (option fault) :=
  fun w => (Returned (scheduled 0 w), advance w).

(** The program calls the driver. *)
Definition driver_called (c : driver_call) : M unit :=
  fun w => (Returned tt, record_call c w).

Definition is_open (c : nat) (w : world) : bool := existsb (Nat.eqb c) (open_conns w).

(** A connection is established and numbered. *)
Definition new_connection : M nat :=
  fun w =>
    let c := next_conn w in
    (Returned c, set_conns (S c) (open_conns w ++ [c]) w).

(** [pymysql.connect(host=, user=, password=, db=)]: when the attempt
    fails the program holds no connection, whatever the server did. *)
Definition pymysql_connect (host user password db_name : string) : M nat :=
  driver_called (CallConnect host user password db_name) ;;
  reply <- round_trip ;;
  match reply with
  | Some f => raise (fault_exn f)
  | None => new_connection
  end.

Definition closed_connection : exception := mk_exn (Driver InterfaceError) "(0, '')".
Definition already_closed : exception := mk_exn (Driver DBError) "Already closed".

(** The server forgets connection [c]: its open transaction is rolled
    back. *)
Definition drop_connection (c : nat) (w : world) : world :=
  let w1 := set_conns (next_conn w)
              (filter (fun x => negb (Nat.eqb x c)) (open_conns w)) w in
  set_db (rollback_pending c (db w1)) w1.

(** [connection.close()] *)
Definition connection_close (c : nat) : M unit :=
  fun w =>
    if is_open c w then (Returned tt, drop_connection c (record_call (CallClose c) w))
    else (Raised already_closed, w).

(** What the interpreter does when the last reference to a connection
    object goes: reference counting runs the object's finaliser at once,
    and the finaliser of a pymysql connection closes its socket.  The
    program makes no call, so the trace shows none.  In this program the
    case arises at line 89, which rebinds the name that held the
    connection of line 87.  A frame that an exception in flight keeps
    alive keeps its connections too; what becomes of them once a handler
    has dropped the exception is not followed. *)
Definition finalize_connection (c : nat) : M unit :=
  fun w =>
    if is_open c w then (Returned tt, drop_connection c w)
    else (Returned tt, w).

(** The server ends the transaction of connection [c]. *)
Definition server_commit (c : nat) : M unit :=
  fun w => (Returned tt, set_db (commit_pending c (db w)) w).

(** [connection.commit()].  When the call fails the transaction may
    have been committed all the same: the server carried it out and its
    reply did not arrive. *)
Definition connection_commit (c : nat) : M unit :=
  fun w =>
    if is_open c w then
      (driver_called (CallCommit c) ;;
       reply <- round_trip ;;
       match reply with
       | None => server_commit c
       | Some f =>
           (if fault_applied f then server_commit c else ret tt) ;;
           raise (fault_exn f)
       end) w
    else (Raised closed_connection, w).

Inductive cursor_class : Type := Cursor | DictCursor.

Record cursor : Type := mk_cursor {
  cur_conn : nat;
  cur_class : cursor_class;
  cur_result : list (list (string * json))
}.

(** [connection.cursor(cls)] *)
Definition connection_cursor (c : nat) (cls : cursor_class) : cursor :=
  mk_cursor c cls [].

(** The driver's conversion of a parameter to a literal fails on a dict
    and on a float that is not finite, also inside a list. *)
Fixpoint escape_error (v : json) : option exception :=
  match v with
  | JObj _ => Some (mk_exn TypeError "dict can not be used as parameter")
  | JFloat (S754_infinity false) =>
      Some (mk_exn (Driver ProgrammingError) "inf can not be used with MySQL")
  | JFloat (S754_infinity true) =>
      Some (mk_exn (Driver ProgrammingError) "-inf can not be used with MySQL")
  | JFloat S754_nan =>
      Some (mk_exn (Driver ProgrammingError) "nan can not be used with MySQL")
  | JArr l =>
      (fix first_error (xs : list json) : option exception :=
         match xs with
         | [] => None
         | x :: rest =>
             match escape_error x with
             | Some e => Some e
             | None => first_error rest
             end
         end) l
  | _ => None
  end.

Fixpoint first_escape_error (args : list json) : option exception :=
  match args with
  | [] => None
  | a :: rest =>
      match escape_error a with
      | Some e => Some e
      | None => first_escape_error rest
      end
  end.

(** The bytes [a], [b] open a surrogate that the driver's encoder
    refuses.  It encodes the statement as UTF-8 with the surrogateescape
    handler, which lets U+DC80..U+DCFF through (second byte B2 or B3)
    and fails on every other surrogate. *)
Definition refused_surrogate (a b : ascii) : bool :=
  let x := nat_of_ascii a in
  let y := nat_of_ascii b in
  ((x =? 237) && (160 <=? y) && (y <=? 191) && negb ((y =? 178) || (y =? 179)))%nat.

Fixpoint unencodable (s : string) : bool :=
  match s with
  | String a rest =>
      match rest with
      | String b _ => refused_surrogate a b || unencodable rest
      | EmptyString => false
      end
  | EmptyString => false
  end.

(** The literal of the parameter contains such a surrogate. *)
Fixpoint carries_unencodable (v : json) : bool :=
  match v with
  | JStr s => unencodable s
  | JArr l =>
      (fix any (xs : list json) : bool :=
         match xs with
         | [] => false
         | x :: rest => carries_unencodable x || any rest
         end) l
  | _ => false
  end.

(** The interpreter's text goes on to name the character and its
    position in the statement. *)
Definition encode_error : exception :=
  mk_exn UnicodeEncodeError "'utf-8' codec can't encode character: surrogates not allowed".

(** What the driver does with the parameters before anything is sent:
    each is converted to a literal, then the statement that holds them
    is encoded. *)
Definition escape_args (args : list json) : option exception :=
  match first_escape_error args with
  | Some e => Some e
  | None => if existsb carries_unencodable args then Some encode_error else None
  end.

Definition statement_args (s : statement) : list json :=
  match s with
  | InsertEvent t de im da lo => [t; de; im; da; lo]
  | _ => []
  end.

(** The server evaluates statement [s] received on the cursor's
    connection and answers. *)
Definition server_answer (cur : cursor) (s : statement) : M cursor :=
  fun w =>
    match server_execute (cur_conn cur) s (db w) with
    | inl f => (Raised (fault_exn f), w)
    | inr (d, rs) => (Returned (mk_cursor (cur_conn cur) (cur_class cur) rs), set_db d w)
    end.

(** The server evaluates the statement and nobody hears its answer. *)
Definition server_unheard (c : nat) (s : statement) : M unit :=
  fun w =>
    match server_execute c s (db w) with
    | inl _ => (Returned tt, w)
    | inr (d, _) => (Returned tt, set_db d w)
    end.

(** [cursor.execute(sql, args)] *)
Definition cursor_execute (cur : cursor) (s : statement) : M cursor :=
  fun w =>
    match escape_args (statement_args s) with
    | Some e => (Raised e, w)
    | None =>
        if is_open (cur_conn cur) w then
          (driver_called (CallExecute (cur_conn cur) s) ;;
           reply <- round_trip ;;
           match reply with
           | None => server_answer cur s
           | Some f =>
               (if fault_applied f then server_unheard (cur_conn cur) s else ret tt) ;;
               raise (fault_exn f)
           end) w
        else (Raised closed_connection, w)
    end.

(** [cursor.fetchall()]: dicts from a [DictCursor], tuples otherwise. *)
Definition cursor_fetchall (cur : cursor) : list json :=
  match cur_class cur with
  | DictCursor => map JObj (cur_result cur)
  | Cursor => map (fun r => JArr (map snd r)) (cur_result cur)
  end.

(** [with connection.cursor(cls) as cursor: body]; closing a cursor
    involves neither the server nor the connection. *)
Definition with_cursor {A : Type} (c : nat) (cls : cursor_class)
    (body : cursor -> M A) : M A :=
  try_finally (body (connection_cursor c cls)) (ret tt).

(** [with acquire as connection: body]: a connection used as a context
    manager is the target itself and is closed when the block is left. *)
Definition with_connection {A : Type} (acquire : M nat) (body : nat -> M A) : M A :=
  connection <- acquire ;;
  try_finally (body connection) (connection_close connection).

(* ================================================================== *)
(** * application.py *)

Record response : Type := mk_response { status : nat; body : json }.

(** The body of a request as the JSON parser behind
    [request.get_json(force=True, silent=True)] deals with it: absent;
    refused with a ValueError (a syntax or encoding error); parsed to a
    document; or nested so deep, well formed or not, that the parser
    gives up with a RecursionError, whose text is [text]. *)
Inductive request_body : Type :=
| NoBody
| Malformed (raw : string)
| JsonBody (v : json)
| Overnested (raw : string) (text : string).

(** What the parser raises that [silent=True] does not swallow: the
    call catches ValueError and nothing else. *)
Definition parser_error (b : request_body) : option exception :=
  match b with
  | Overnested _ text => Some (mk_exn RecursionError text)
  | _ => None
  end.

(** The value of the call when it returns: with [silent=True] a body
    that is absent or refused yields [None].  ([None] stands here also
    for the value there is not when the call raises.) *)
Definition get_json_force_silent (b : request_body) : json :=
  match b with
  | JsonBody v => v
  | NoBody | Malformed _ | Overnested _ _ => JNull
  end.

(** [request.get_json(force=True, silent=True)] *)
Definition request_get_json (b : request_body) : M json :=
  match parser_error b with
  | Some e => raise e
  | None => ret (get_json_force_silent b)
  end.

(** [obj.get(k)]: defined on a dict only. *)
Definition py_get (obj : json) (k : string) : M json :=
  match obj with
  | JObj items => ret (dict_get items k)
  | _ => raise (mk_exn AttributeError
                  ("'" ++ type_name obj ++ "' object has no attribute 'get'"))
  end.

(** [', '.join(l)] *)
Fixpoint join (sep : string) (l : list string) : string :=
  match l with
  | [] => ""
  | [x] => x
  | x :: rest => x ++ sep ++ join sep rest
  end.

(** ** get_db_connection (lines 60-84) *)

Definition required_vars : list string :=
  ["DB_HOST"; "DB_USER"; "DB_PASSWORD"; "DB_NAME"].

(** [not os.environ.get(var)] *)
Definition unset (env : list (string * string)) (var : string) : bool :=
  match assoc var env with
  | None => true
  | Some v => String.eqb v ""
  end.

Definition missing_vars (env : list (string * string)) : list string :=
  filter (unset env) required_vars.

Definition env_or_empty (v : option string) : string :=
  match v with Some s => s | None => "" end.

Definition get_db_connection : M nat :=
  fun w =>
    let missing := missing_vars (environ w) in
    match missing with
    | _ :: _ =>
        let msg := ("Missing environment variables: " ++ join ", " missing)%string in
        (logging_error msg ;;
         raise (mk_exn EnvironmentError msg)) w
    | [] =>
        try_except
          (host <- environ_get "DB_HOST" ;;
           user <- environ_get "DB_USER" ;;
           password <- environ_get "DB_PASSWORD" ;;
           db_name <- environ_get "DB_NAME" ;;
           connection <- pymysql_connect (env_or_empty host) (env_or_empty user)
                           (env_or_empty password) (env_or_empty db_name) ;;
           ret connection)
          [(Driver OperationalError,
            fun e => raise (mk_exn ConnectionError
                              ("Failed to connect to the database: " ++ exn_msg e)))]
          w
    end.

(** ** create_db_table (lines 86-106) *)

(** The name [connection] is bound twice: at line 87 and again, to the
    connection the [with] of line 89 has obtained, before the block is
    entered.  The second binding takes the last reference to the first
    connection, [first] below. *)
Definition create_db_table : M unit :=
  first <- get_db_connection ;;                            (* line 87 *)
  try_except
    (with_connection get_db_connection (fun connection =>  (* line 89 *)
       finalize_connection first ;;
       with_cursor connection Cursor (fun cursor =>
         cursor_execute cursor CreateTableIfNotExists ;;
         ret tt) ;;
       connection_commit connection ;;
       logging_info "Events table created or already exists"))
    [(Exception,
      fun e =>
        logging_exception "Failed to create or verify the events table" ;;
        raise (mk_exn RuntimeError ("Table creation failed: " ++ exn_msg e)))].

(** ** insert_data_into_db (lines 108-127) *)

Definition insert_data_into_db (payload : json) : M unit :=
  create_db_table ;;
  connection <- get_db_connection ;;
  try_finally
    (with_cursor connection Cursor (fun cursor =>
       title <- py_get payload "title" ;;
       description <- py_get payload "description" ;;
       image_url <- py_get payload "image_url" ;;
       date_ <- py_get payload "date" ;;
       location <- py_get payload "location" ;;
       cursor_execute cursor (InsertEvent title description image_url date_ location) ;;
       ret tt) ;;
     connection_commit connection)
    (connection_close connection).

(** ** fetch_data_from_db (lines 129-149) *)

(** The SELECT of lines 136-141, token by token: no comma stands between
    the alias of the formatted date and [location]. *)
Definition fetch_sql : select_query :=
  mk_select
    [TIdent "id"; TComma; TIdent "title"; TComma; TIdent "description"; TComma;
     TIdent "image_url"; TComma;
     TDateFormat "date" "%a, %d %b %Y 00:00:00 GMT"; TAs; TIdent "date";
     TIdent "location"]
    ["date"; "id"].

(** The names the module binds at top level: its imports, the
    application object and its functions. *)
Definition module_globals : list string :=
  ["Flask"; "jsonify"; "request"; "os"; "pymysql"; "OperationalError";
   "logging"; "CORS"; "application"; "health"; "list_events"; "create_event";
   "get_data"; "get_db_connection"; "create_db_table"; "insert_data_into_db";
   "fetch_data_from_db"].

(** Reading a name that the function does not assign: it is looked up
    among the module's globals (the built-in names include no [row]). *)
Definition load_global (name : string) : M unit :=
  if existsb (String.eqb name) module_globals then ret tt
  else raise (mk_exn NameError ("name '" ++ name ++ "' is not defined")).

(** Line 143, between the assignment of [sql] and [cursor.execute]:

      "date": row['date'].strftime(...) if row.get("date") else None,

    The line is not a statement of the language (the compiler reports
    an illegal target for annotation and refuses the module).  It is
    read here as the expression it consists of, evaluated where it
    stands: the condition [row.get("date")] comes first and reads the
    name [row], which nothing binds. *)
Definition line_143 : M unit := load_global "row".

Definition fetch_data_from_db : M (list json) :=
  create_db_table ;;
  connection <- get_db_connection ;;
  try_finally
    (rows_ <- with_cursor connection DictCursor (fun cursor =>
       let sql := Select fetch_sql in
       line_143 ;;
       cursor' <- cursor_execute cursor sql ;;
       ret (cursor_fetchall cursor')) ;;
     ret rows_)
    (connection_close connection).

(** ** The routes *)

(** GET /health (lines 13-18) *)
Definition health : M response :=
  ret (mk_response 200 (JObj [("status", JStr "healthy")])).

(** GET /events (lines 21-30) *)
Definition list_events : M response :=
  try_except
    (data <- fetch_data_from_db ;;
     ret (mk_response 200 (JArr data)))
    [(NotImplementedError,
      fun nie => ret (mk_response 501 (JObj [("error", JStr (exn_msg nie))])));
     (Exception,
      fun e =>
        logging_exception "Error occurred during events retrieval" ;;
        ret (mk_response 500
               (JObj [("error", JStr "During events retrieval");
                      ("detail", JStr (exn_msg e))])))].

Definition missing_fields_response : response :=
  mk_response 400
    (JObj [("error", JStr "Missing required fields: 'title' and 'date'")]).

(** POST /events (lines 33-48) *)
Definition create_event (request : request_body) : M response :=
  try_except
    (parsed <- request_get_json request ;;
     let payload := py_or parsed (JObj []) in
     title <- py_get payload "title" ;;
     date_ <- py_get payload "date" ;;
     if negb (truthy title) || negb (truthy date_) then
       ret missing_fields_response
     else
       insert_data_into_db payload ;;
       ret (mk_response 201 (JObj [("message", JStr "Event created successfully")])))
    [(Exception,
      fun e =>
        logging_exception "Error occurred during event creation" ;;
        ret (mk_response 500
               (JObj [("error", JStr "During event creation");
                      ("detail", JStr (exn_msg e))])))].

(** GET /data (lines 51-58) *)
Definition get_data : M response :=
  try_except
    (data <- fetch_data_from_db ;;
     ret (mk_response 200 (JObj [("data", JArr data)])))
    [(Exception,
      fun e =>
        logging_exception "Error occurred during data retrieval" ;;
        ret (mk_response 500
               (JObj [("error", JStr "During data retrieval");
                      ("detail", JStr (exn_msg e))])))].

(* ================================================================== *)
(** * Vocabulary of the statements *)

(** Status of the response a handler returned, if it returned one. *)
Definition status_of (r : outcome response * world) : option nat :=
  match fst r with
  | Returned x => Some (status x)
  | Raised _ => None
  end.

(** The exception a call ended with, if it raised. *)
Definition raised_by {A : Type} (r : outcome A * world) : option exception :=
  match fst r with
  | Returned _ => None
  | Raised e => Some e
  end.

(** The call raised an instance of [cls]. *)
Definition raises_instance_of {A : Type} (cls : exn_class) (r : outcome A * world) : bool :=
  match raised_by r with
  | Some e => isinstance e cls
  | None => false
  end.

(** [needle] occurs in [s]. *)
Definition occurs_in (needle s : string) : Prop :=
  exists pre post : string, s = (pre ++ needle ++ post)%string.

Definition is_dict (v : json) : bool :=
  match v with JObj _ => true | _ => false end.

(** The value a parsed body holds under a key; nothing but a JSON object
    holds any. *)
Definition field (v : json) (k : string) : json :=
  match v with
  | JObj items => dict_get items k
  | _ => JNull
  end.

(** The parsed body has no title or no date, or an empty one. *)
Definition lacks_required (v : json) : bool :=
  negb (truthy (field v "title")) || negb (truthy (field v "date")).

(** A SELECT sent to the server. *)
Definition is_select_call (c : driver_call) : bool :=
  match c with
  | CallExecute _ (Select _) => true
  | _ => false
  end.

Definition is_close_call (c : driver_call) : bool :=
  match c with
  | CallClose _ => true
  | _ => false
  end.

(** The list operation with line 143 left out, as the specification
    reads the function (the line taken for dead code); everything else
    is as in [fetch_data_from_db]. *)
Definition fetch_data_from_db_without_line_143 : M (list json) :=
  create_db_table ;;
  connection <- get_db_connection ;;
  try_finally
    (rows_ <- with_cursor connection DictCursor (fun cursor =>
       let sql := Select fetch_sql in
       cursor' <- cursor_execute cursor sql ;;
       ret (cursor_fetchall cursor')) ;;
     ret rows_)
    (connection_close connection).

(** The select list the specification intends: the six columns, with the
    comma between the formatted date and [location]. *)
Definition intended_sql : select_query :=
  mk_select
    [TIdent "id"; TComma; TIdent "title"; TComma; TIdent "description"; TComma;
     TIdent "image_url"; TComma;
     TDateFormat "date" "%a, %d %b %Y 00:00:00 GMT"; TAs; TIdent "date"; TComma;
     TIdent "location"]
    ["date"; "id"].

(** ** Sample worlds *)

Definition configured_env : list (string * string) :=
  [("DB_HOST", "db.example.org"); ("DB_USER", "app");
   ("DB_PASSWORD", "secret"); ("DB_NAME", "events")].

(** Complete configuration, a reachable server without the table, no
    failure scheduled. *)
Definition fresh_world : world :=
  mk_world configured_env (mk_db false [] 1 []) [] 0 [] [] [].

Definition world_with_rows (rs : list event_row) (next : Z) : world :=
  mk_world configured_env (mk_db true rs next []) [] 0 [] [] [].

Definition launch_payload : json :=
  JObj [("title", JStr "Launch"); ("date", JStr "2024-07-01")].

Definition may_event : event_row :=
  mk_row 1 (JStr "May Day") JNull JNull (JStr "2024-05-01") JNull.
Definition june_event : event_row :=
  mk_row 2 (JStr "Summer") JNull JNull (JStr "2024-06-01") JNull.
Definition mid_june_event : event_row :=
  mk_row 3 (JStr "Fair") JNull JNull (JStr "2024-06-15") JNull.
Definition undated_event : event_row :=
  mk_row 4 (JStr "Undated") JNull JNull JNull JNull.

(** The format string of the SELECT. *)
Definition http_date_format : string := "%a, %d %b %Y 00:00:00 GMT".

(** Complete configuration; the first connection is granted, the second
    refused. *)
Definition flaky_world : world :=
  mk_world configured_env (mk_db false [] 1 [])
           [None; Some (mk_fault OperationalError "(2003, 'Cannot connect to MySQL server')"
                           false)]
           0 [] [] [].

(** The reply to the seventh round trip, the commit of the INSERT, is
    lost after the server has committed. *)
Definition lost_commit : fault :=
  mk_fault OperationalError "(2013, 'Lost connection to MySQL server during query')" true.

Definition lost_reply_world : world :=
  mk_world configured_env (mk_db false [] 1 [])
           [None; None; None; None; None; None; Some lost_commit]
           0 [] [] [].

(** A payload whose title is the lone surrogate U+D800, as the body
    {"title": "\ud800", "date": "2024-07-01"} parses. *)
Definition lone_surrogate : string :=
  String (ascii_of_nat 237) (String (ascii_of_nat 160) (String (ascii_of_nat 128) "")).

Definition surrogate_payload : json :=
  JObj [("title", JStr lone_surrogate); ("date", JStr "2024-07-01")].

Definition is_insert_call (c : driver_call) : bool :=
  match c with
  | CallExecute _ (InsertEvent _ _ _ _ _) => true
  | _ => false
  end.

Fixpoint repeat_char (c : ascii) (n : nat) : string :=
  match n with
  | O => ""
  | S n' => String c (repeat_char c n')
  end.

(** A body of 1100 opening brackets: not a JSON document, and deeper
    than the parser can follow. *)
Definition deep_brackets : string := repeat_char "[" 1100.

Definition recursion_text : string :=
  "maximum recursion depth exceeded while decoding a JSON array from a unicode string".

(** Configuration without the password and with an empty database name. *)
Definition partial_world : world :=
  mk_world [("DB_HOST", "db.example.org"); ("DB_USER", "app"); ("DB_NAME", "")]
           (mk_db false [] 1 []) [] 0 [] [] [].

(** The body of a 500 response: [{"error": what, "detail": str(e)}]. *)
Definition error_response (what : string) (e : exception) : response :=
  mk_response 500 (JObj [("error", JStr what); ("detail", JStr (exn_msg e))]).

Definition created_response : response :=
  mk_response 201 (JObj [("message", JStr "Event created successfully")]).

(** The parameters [insert_data_into_db] hands to the INSERT. *)
Definition insert_args (items : list (string * json)) : list json :=
  [dict_get items "title"; dict_get items "description"; dict_get items "image_url";
   dict_get items "date"; dict_get items "location"].

(** The row a payload is stored as, under key [id]. *)
Definition row_of (id : Z) (items : list (string * json)) : event_row :=
  mk_row id (dict_get items "title") (dict_get items "description")
         (dict_get items "image_url") (dict_get items "date")
         (dict_get items "location").

(** The text of the error raised on incomplete configuration. *)
Definition missing_message (env : list (string * string)) : string :=
  "Missing environment variables: " ++ join ", " (missing_vars env).

(** ** Worlds reached by the calls *)

Definition connect_call (env : list (string * string)) : driver_call :=
  CallConnect (env_or_empty (assoc "DB_HOST" env)) (env_or_empty (assoc "DB_USER" env))
              (env_or_empty (assoc "DB_PASSWORD" env)) (env_or_empty (assoc "DB_NAME" env)).

(** What [get_db_connection] raises when the driver fails with [f]. *)
Definition connect_error (f : fault) : exception :=
  if dbapi_eqb (fault_cls f) OperationalError
  then mk_exn ConnectionError ("Failed to connect to the database: " ++ fault_msg f)
  else fault_exn f.

(** What [create_db_table] makes of exception [e]. *)
Definition table_creation_failed (e : exception) : exception :=
  mk_exn RuntimeError ("Table creation failed: " ++ exn_msg e).

(** After [get_db_connection] returned connection [next_conn w]. *)
Definition after_connect (w : world) : world :=
  set_conns (S (next_conn w)) (open_conns w ++ [next_conn w])
            (advance (record_call (connect_call (environ w)) w)).

(** After the connection attempt of [get_db_connection] failed. *)
Definition after_refusal (w : world) : world :=
  advance (record_call (connect_call (environ w)) w).

Definition after_execute (c : nat) (s : statement) (d : database) (w : world) : world :=
  set_db d (advance (record_call (CallExecute c s) w)).

(** After an execute that failed with [f]. *)
Definition after_execute_fault (c : nat) (s : statement) (f : fault) (w : world) : world :=
  let w1 := advance (record_call (CallExecute c s) w) in
  if fault_applied f then
    match server_execute c s (db w1) with
    | inl _ => w1
    | inr (d, _) => set_db d w1
    end
  else w1.

Definition after_commit (c : nat) (w : world) : world :=
  set_db (commit_pending c (db w)) (advance (record_call (CallCommit c) w)).

(** After a commit that failed with [f]. *)
Definition after_commit_fault (c : nat) (f : fault) (w : world) : world :=
  if fault_applied f then after_commit c w
  else advance (record_call (CallCommit c) w).

Definition after_close (c : nat) (w : world) : world :=
  drop_connection c (record_call (CallClose c) w).

Definition table_created (c : nat) (d : database) : database :=
  mk_db true (rows (commit_pending c d)) (next_id (commit_pending c d))
        (pending (commit_pending c d)).

(** In [create_db_table], after line 89 has obtained its connection:
    two connections were opened, numbered [next_conn w] and its
    successor, and the first has been finalised. *)
Definition after_rebinding (w : world) : world :=
  drop_connection (next_conn w) (after_connect (after_connect w)).

Definition schema_failure_log : string := "Failed to create or verify the events table".

(** After [create_db_table] returned: the statement, the commit and
    the close all went to the second connection. *)
Definition after_create_table (w : world) : world :=
  let c := S (next_conn w) in
  let w3 := after_rebinding w in
  let w4 := after_execute c CreateTableIfNotExists (table_created c (db w3)) w3 in
  let w5 := after_commit c w4 in
  after_close c (record_log INFO "Events table created or already exists" w5).

(** After [create_db_table] failed because its second connection
    attempt did. *)
Definition after_second_refusal (w : world) : world :=
  record_log ERROR schema_failure_log (after_refusal (after_connect w)).

(** ... because CREATE TABLE failed with [f]. *)
Definition after_create_fault (f : fault) (w : world) : world :=
  let c := S (next_conn w) in
  record_log ERROR schema_failure_log
    (after_close c (after_execute_fault c CreateTableIfNotExists f (after_rebinding w))).

(** ... because the commit failed with [f]. *)
Definition after_schema_commit_fault (f : fault) (w : world) : world :=
  let c := S (next_conn w) in
  let w3 := after_rebinding w in
  let w4 := after_execute c CreateTableIfNotExists (table_created c (db w3)) w3 in
  record_log ERROR schema_failure_log (after_close c (after_commit_fault c f w4)).

Definition row_inserted (c : nat) (r : event_row) (d : database) : database :=
  mk_db true (rows d) (next_id d + 1)%Z (pending d ++ [(c, r)]).

(** After [insert_data_into_db] stored the five values. *)
Definition after_insert (t de im da lo : json) (w : world) : world :=
  let w1 := after_create_table w in
  let c := next_conn w1 in
  let w2 := after_connect w1 in
  let r := mk_row (next_id (db w2)) t de im da lo in
  let w3 := after_execute c (InsertEvent t de im da lo) (row_inserted c r (db w2)) w2 in
  after_close c (after_commit c w3).

(** ** Invariants of a computation *)

(** [m] keeps [P]: from a world where [P] holds it ends, returning or
    raising, in a world where [P] holds. *)
Definition preserves {A : Type} (P : world -> Prop) (m : M A) : Prop :=
  forall w, P w -> P (snd (m w)).

(** The table holds the committed rows [R], its counter stands at [N],
    and no transaction is open. *)
Definition stored (R : list event_row) (N : Z) (w : world) : Prop :=
  rows (db w) = R /\ next_id (db w) = N /\ pending (db w) = [].

(** The open connections are [O] and the next one will be numbered [N]. *)
Definition connections (O : list nat) (N : nat) (w : world) : Prop :=
  open_conns w = O /\ next_conn w = N.

(** What a call that opens and closes no connection leaves of the
    bookkeeping: the open connections and their numbering as they were,
    the schedule as it was or shortened by one. *)
Definition framed (w w' : world) : Prop :=
  open_conns w' = open_conns w /\ next_conn w' = next_conn w /\
  environ w' = environ w /\
  (schedule w' = schedule w \/ schedule w' = tl (schedule w)).

(** Every open connection is one of [allowed]. *)
Definition opens_only (allowed : list nat) (w : world) : Prop :=
  forall c, In c (open_conns w) -> In c allowed.

(** No scheduled failure is one whose request the server carried out. *)
Definition no_lost_reply (w : world) : Prop :=
  Forall (fun o => match o with
                   | Some f => fault_applied f = false
                   | None => True
                   end) (schedule w).

(** The payload [create_event] works on: the parsed body, or [{}]; there
    is none, [None], when the parser raised. *)
Definition payload_of (b : request_body) : json :=
  match parser_error b with
  | Some _ => JNull
  | None => py_or (get_json_force_silent b) (JObj [])
  end.

(* ================================================================== *)
(** * Properties *)

(** ** Exceptions and control flow *)

Lemma every_class_is_exception : forall c, issubclass c Exception = true.
Proof.
  intros c. destruct c as [ | | | | | | | | | | | | d]; try reflexivity.
  destruct d; reflexivity.
Qed.

Lemma every_exception_is_caught : forall e, isinstance e Exception = true.
Proof. intros e. apply every_class_is_exception. Qed.

Lemma driver_fault_is_not_unimplemented f :
  isinstance (fault_exn f) NotImplementedError = false.
Proof. destruct f as [cls msg ap]. destruct cls; reflexivity. Qed.

Lemma bind_returned {A B : Type} (m : M A) (k : A -> M B) w a w' :
  m w = (Returned a, w') -> bind m k w = k a w'.
Proof. intros H. unfold bind. rewrite H. reflexivity. Qed.

Lemma bind_raised {A B : Type} (m : M A) (k : A -> M B) w e w' :
  m w = (Raised e, w') -> bind m k w = (Raised e, w').
Proof. intros H. unfold bind. rewrite H. reflexivity. Qed.

Lemma try_finally_returned {A : Type} (body : M A) (cleanup : M unit) w r w' w'' :
  body w = (r, w') -> cleanup w' = (Returned tt, w'') ->
  try_finally body cleanup w = (r, w'').
Proof. intros Hb Hc. unfold try_finally. rewrite Hb, Hc. reflexivity. Qed.

Lemma with_cursor_body {A : Type} c cls (body : cursor -> M A) w :
  with_cursor c cls body w = body (connection_cursor c cls) w.
Proof.
  unfold with_cursor, try_finally, ret.
  destruct (body (connection_cursor c cls) w) as [r w']. reflexivity.
Qed.

Lemma try_except_returned {A : Type} (body : M A) clauses w a w' :
  body w = (Returned a, w') -> try_except body clauses w = (Returned a, w').
Proof. intros H. unfold try_except. rewrite H. reflexivity. Qed.

Lemma try_except_raised {A : Type} (body : M A) clauses w e w' :
  body w = (Raised e, w') -> try_except body clauses w = select_clause e clauses w'.
Proof. intros H. unfold try_except. rewrite H. reflexivity. Qed.

(** Replace a call in front of a bind by its known outcome. *)
Ltac returned H := rewrite (bind_returned _ _ _ _ _ H).
Ltac raised H := rewrite (bind_raised _ _ _ _ _ H).

(** ** GET /health *)

(** C5. In every world, whatever the configuration and the state of the
    database, GET /health returns status 200 with the body
    {"status": "healthy"} and touches nothing. *)
Theorem health_always_healthy :
  forall w : world,
    health w = (Returned (mk_response 200 (JObj [("status", JStr "healthy")])), w).
Proof. intros w. reflexivity. Qed.

(** ** POST /events: the body and its validation *)

Lemma request_get_json_parsed b w :
  parser_error b = None ->
  request_get_json b w = (Returned (get_json_force_silent b), w).
Proof. intros H. unfold request_get_json. rewrite H. reflexivity. Qed.

Lemma payload_is_parsed b v :
  payload_of b = v -> v <> JNull ->
  parser_error b = None /\ py_or (get_json_force_silent b) (JObj []) = v.
Proof.
  unfold payload_of. destruct (parser_error b); intros H Hv.
  - congruence.
  - split; [reflexivity | exact H].
Qed.

Lemma create_event_rejects_object :
  forall w b items,
    payload_of b = JObj items ->
    lacks_required (JObj items) = true ->
    create_event b w = (Returned missing_fields_response, w).
Proof.
  intros w b items Hp Hl.
  destruct (payload_is_parsed b _ Hp) as [He Hy]; [discriminate | ].
  unfold create_event, try_except.
  returned (request_get_json_parsed b w He). rewrite Hy.
  unfold lacks_required, field in Hl.
  cbn [py_get]. unfold bind, ret. rewrite Hl. reflexivity.
Qed.

Lemma create_event_rejects_non_dict :
  forall w b,
    is_dict (get_json_force_silent b) = false ->
    truthy (get_json_force_silent b) = true ->
    create_event b w
    = (Returned (mk_response 500
         (JObj [("error", JStr "During event creation");
                ("detail", JStr ("'" ++ type_name (get_json_force_silent b)
                                     ++ "' object has no attribute 'get'"))])),
       record_log ERROR "Error occurred during event creation" w).
Proof.
  intros w b Hd Ht.
  assert (He : parser_error b = None) by (destruct b; [ | | | discriminate Ht]; reflexivity).
  unfold create_event, try_except.
  returned (request_get_json_parsed b w He). unfold py_or. rewrite Ht.
  destruct (get_json_force_silent b); try discriminate Hd; reflexivity.
Qed.

Lemma create_event_parser_raises :
  forall w b e,
    parser_error b = Some e ->
    create_event b w
    = (Returned (mk_response 500
         (JObj [("error", JStr "During event creation"); ("detail", JStr (exn_msg e))])),
       record_log ERROR "Error occurred during event creation" w).
Proof.
  intros w b e He. unfold create_event, try_except, request_get_json.
  rewrite He. unfold bind at 1, raise at 1. cbn [select_clause].
  rewrite every_exception_is_caught. reflexivity.
Qed.

(** C6, as stated, fails: a body of 1100 opening brackets is not valid
    JSON, the parser abandons it with a RecursionError, which
    [silent=True] does not swallow, and the handler answers 500 with the
    parser's text, not the 400 it gives the empty object. *)
Lemma create_event_overnested_body_is_500 :
  create_event (Overnested deep_brackets recursion_text) fresh_world
  = (Returned (mk_response 500
                 (JObj [("error", JStr "During event creation");
                        ("detail", JStr recursion_text)])),
     record_log ERROR "Error occurred during event creation" fresh_world) /\
  create_event (JsonBody (JObj [])) fresh_world
  = (Returned missing_fields_response, fresh_world) /\
  create_event (Overnested deep_brackets recursion_text) fresh_world
  <> create_event (JsonBody (JObj [])) fresh_world.
Proof.
  pose proof (create_event_parser_raises fresh_world
                (Overnested deep_brackets recursion_text)
                (mk_exn RecursionError recursion_text) eq_refl) as E.
  split; [exact E | ].
  split; [reflexivity | ].
  rewrite E. discriminate.
Qed.

(** C6, amended. A POST /events whose body is absent, or which the
    parser refuses with a ValueError (malformed syntax or encoding), is
    handled exactly like one whose body is the empty object: the
    missing-field check answers 400, and the world is left as it was.  A
    body the parser abandons with another exception (nesting beyond the
    recursion limit) is answered 500, with the parser's text as detail,
    and the failure is logged. *)
Theorem create_event_lenient_body :
  forall w : world,
    create_event NoBody w = create_event (JsonBody (JObj [])) w /\
    (forall raw, create_event (Malformed raw) w = create_event (JsonBody (JObj [])) w) /\
    create_event (JsonBody (JObj [])) w = (Returned missing_fields_response, w) /\
    (forall raw text,
       create_event (Overnested raw text) w
       = (Returned (mk_response 500
                      (JObj [("error", JStr "During event creation");
                             ("detail", JStr text)])),
          record_log ERROR "Error occurred during event creation" w)).
Proof.
  intros w. repeat split; reflexivity.
Qed.

(** C2. A body that parses to a non-empty JSON array holds neither
    title nor date, and the handler answers 500, not the 400 of the
    claim: [payload.get] is called on the list and raises
    AttributeError, which the generic clause reports. *)
Lemma create_event_array_body_not_400 :
  lacks_required (get_json_force_silent (JsonBody (JArr [JInt 1]))) = true /\
  create_event (JsonBody (JArr [JInt 1])) fresh_world
  = (Returned (mk_response 500
                 (JObj [("error", JStr "During event creation");
                        ("detail", JStr "'list' object has no attribute 'get'")])),
     record_log ERROR "Error occurred during event creation" fresh_world) /\
  ~ (forall w b, lacks_required (get_json_force_silent b) = true ->
                 status_of (create_event b w) = Some 400).
Proof.
  split; [reflexivity | split; [reflexivity | ]].
  intros H. specialize (H fresh_world (JsonBody (JArr [JInt 1])) eq_refl).
  discriminate H.
Qed.

(** The empty array, which holds as little, gets the 400: it is falsy
    and [or] replaces it by the empty object. *)
Example empty_array_body_is_400 :
  create_event (JsonBody (JArr [])) fresh_world
  = (Returned missing_fields_response, fresh_world).
Proof. reflexivity. Qed.

(** ** The schedule *)

Lemma nth_tl {A : Type} n (l : list A) d : nth n (tl l) d = nth (S n) l d.
Proof. destruct l; [destruct n; reflexivity | reflexivity]. Qed.

Lemma idle_schedule n w : schedule w = [] -> scheduled n w = None.
Proof. unfold scheduled. intros ->. destruct n; reflexivity. Qed.

Lemma scheduled_head w o rest : schedule w = o :: rest -> scheduled 0 w = o.
Proof. unfold scheduled. intros ->. reflexivity. Qed.

Lemma scheduled_second w o o' rest : schedule w = o :: o' :: rest -> scheduled 1 w = o'.
Proof. unfold scheduled. intros ->. reflexivity. Qed.

Lemma scheduled_advance n w : scheduled n (advance w) = scheduled (S n) w.
Proof. unfold scheduled, advance. cbn [schedule set_schedule]. apply nth_tl. Qed.

Lemma scheduled_after_connect n w : scheduled n (after_connect w) = scheduled (S n) w.
Proof. exact (scheduled_advance n (record_call (connect_call (environ w)) w)). Qed.

Lemma scheduled_after_rebinding n w :
  scheduled n (after_rebinding w) = scheduled (S (S n)) w.
Proof.
  change (scheduled n (after_rebinding w))
    with (scheduled n (after_connect (after_connect w))).
  rewrite !scheduled_after_connect. reflexivity.
Qed.

Lemma scheduled_after_execute n c s d w :
  scheduled n (after_execute c s d w) = scheduled (S n) w.
Proof. exact (scheduled_advance n (record_call (CallExecute c s) w)). Qed.

Lemma scheduled_after_commit n c w : scheduled n (after_commit c w) = scheduled (S n) w.
Proof. exact (scheduled_advance n (record_call (CallCommit c) w)). Qed.

Lemma scheduled_after_create_table n w :
  scheduled n (after_create_table w) = scheduled (4 + n) w.
Proof.
  unfold after_create_table.
  change (scheduled n (after_commit (S (next_conn w))
                         (after_execute (S (next_conn w)) CreateTableIfNotExists
                            (table_created (S (next_conn w)) (db (after_rebinding w)))
                            (after_rebinding w)))
          = scheduled (4 + n) w).
  rewrite scheduled_after_commit, scheduled_after_execute, scheduled_after_rebinding.
  reflexivity.
Qed.

(** ** The driver, call by call *)

Lemma is_open_last c l : existsb (Nat.eqb c) (l ++ [c]) = true.
Proof. rewrite existsb_app. cbn. rewrite Nat.eqb_refl. apply orb_true_r. Qed.

Lemma newest_is_open w : is_open (next_conn w) (after_connect w) = true.
Proof. apply is_open_last. Qed.

Lemma still_open_after_connect c w :
  is_open c w = true -> is_open c (after_connect w) = true.
Proof.
  unfold is_open, after_connect. cbn [open_conns set_conns advance set_schedule record_call].
  intros H. rewrite existsb_app, H. reflexivity.
Qed.

Lemma still_open_after_drop c c' w :
  c <> c' -> is_open c w = true -> is_open c (drop_connection c' w) = true.
Proof.
  unfold is_open, drop_connection. cbn [open_conns set_db set_conns].
  intros Hne H. apply existsb_exists in H. destruct H as [x [Hin Hx]].
  apply existsb_exists. exists x. split; [ | exact Hx].
  apply filter_In. split; [exact Hin | ].
  apply Nat.eqb_eq in Hx. subst x.
  apply negb_true_iff. apply Nat.eqb_neq. exact Hne.
Qed.

Lemma dropped_is_not_open c w : is_open c (drop_connection c w) = false.
Proof.
  unfold is_open, drop_connection. cbn [open_conns set_db set_conns].
  destruct (existsb (Nat.eqb c) (filter (fun x => negb (Nat.eqb x c)) (open_conns w))) eqn:E;
    [ | reflexivity].
  apply existsb_exists in E. destruct E as [x [Hin Hx]].
  apply filter_In in Hin. destruct Hin as [_ Hne].
  apply Nat.eqb_eq in Hx. subst x. rewrite Nat.eqb_refl in Hne. discriminate Hne.
Qed.

Lemma second_is_open_after_rebinding w :
  is_open (S (next_conn w)) (after_rebinding w) = true.
Proof.
  unfold after_rebinding. apply still_open_after_drop; [lia | ].
  exact (newest_is_open (after_connect w)).
Qed.

Lemma first_is_open_before_rebinding w :
  is_open (next_conn w) (after_connect (after_connect w)) = true.
Proof. apply still_open_after_connect. apply newest_is_open. Qed.

Lemma is_open_after_execute c' c s d w :
  is_open c' (after_execute c s d w) = is_open c' w.
Proof. reflexivity. Qed.

Lemma is_open_after_commit c' c w : is_open c' (after_commit c w) = is_open c' w.
Proof. reflexivity. Qed.

Lemma is_open_after_execute_fault c' c s f w :
  is_open c' (after_execute_fault c s f w) = is_open c' w.
Proof.
  unfold after_execute_fault. destruct (fault_applied f); [ | reflexivity].
  destruct (server_execute c s (db (advance (record_call (CallExecute c s) w))))
    as [f'|[d rs]]; reflexivity.
Qed.

Lemma is_open_after_commit_fault c' c f w :
  is_open c' (after_commit_fault c f w) = is_open c' w.
Proof. unfold after_commit_fault. destruct (fault_applied f); reflexivity. Qed.

Lemma cursor_execute_ok c cls s w d rs :
  escape_args (statement_args s) = None ->
  is_open c w = true -> scheduled 0 w = None ->
  server_execute c s (db w) = inr (d, rs) ->
  cursor_execute (connection_cursor c cls) s w
  = (Returned (mk_cursor c cls rs), after_execute c s d w).
Proof.
  intros He Ho Hs Hx. unfold cursor_execute. rewrite He.
  cbn [cur_conn connection_cursor cur_class].
  rewrite Ho. unfold bind, driver_called, round_trip.
  change (scheduled 0 (record_call (CallExecute c s) w)) with (scheduled 0 w).
  rewrite Hs. unfold server_answer.
  cbn [cur_conn cur_class connection_cursor db advance set_schedule record_call].
  rewrite Hx. reflexivity.
Qed.

Lemma cursor_execute_fault c cls s w f :
  escape_args (statement_args s) = None ->
  is_open c w = true -> scheduled 0 w = Some f ->
  cursor_execute (connection_cursor c cls) s w
  = (Raised (fault_exn f), after_execute_fault c s f w).
Proof.
  intros He Ho Hs. unfold cursor_execute. rewrite He.
  cbn [cur_conn connection_cursor cur_class].
  rewrite Ho. unfold bind at 1 2, driver_called, round_trip.
  change (scheduled 0 (record_call (CallExecute c s) w)) with (scheduled 0 w).
  rewrite Hs. unfold after_execute_fault, bind, server_unheard, ret, raise.
  destruct (fault_applied f); [ | reflexivity].
  destruct (server_execute c s (db (advance (record_call (CallExecute c s) w))))
    as [f'|[d rs]]; reflexivity.
Qed.

Lemma connection_commit_ok c w :
  is_open c w = true -> scheduled 0 w = None ->
  connection_commit c w = (Returned tt, after_commit c w).
Proof.
  intros Ho Hs. unfold connection_commit. rewrite Ho.
  unfold bind, driver_called, round_trip.
  change (scheduled 0 (record_call (CallCommit c) w)) with (scheduled 0 w).
  rewrite Hs. reflexivity.
Qed.

Lemma connection_commit_fault c w f :
  is_open c w = true -> scheduled 0 w = Some f ->
  connection_commit c w = (Raised (fault_exn f), after_commit_fault c f w).
Proof.
  intros Ho Hs. unfold connection_commit. rewrite Ho.
  unfold bind at 1 2, driver_called, round_trip.
  change (scheduled 0 (record_call (CallCommit c) w)) with (scheduled 0 w).
  rewrite Hs. unfold after_commit_fault, bind, server_commit, ret, raise.
  destruct (fault_applied f); reflexivity.
Qed.

Lemma connection_close_ok c w :
  is_open c w = true -> connection_close c w = (Returned tt, after_close c w).
Proof. intros Ho. unfold connection_close. rewrite Ho. reflexivity. Qed.

Lemma finalize_connection_open c w :
  is_open c w = true -> finalize_connection c w = (Returned tt, drop_connection c w).
Proof. intros Ho. unfold finalize_connection. rewrite Ho. reflexivity. Qed.

(** ** get_db_connection *)

Lemma get_db_connection_missing w :
  missing_vars (environ w) <> [] ->
  get_db_connection w
  = (Raised (mk_exn EnvironmentError (missing_message (environ w))),
     record_log ERROR (missing_message (environ w)) w).
Proof.
  intros Hm. unfold get_db_connection, missing_message.
  destruct (missing_vars (environ w)) as [|v vs]; [congruence | reflexivity].
Qed.

Lemma get_db_connection_granted w :
  missing_vars (environ w) = [] -> scheduled 0 w = None ->
  get_db_connection w = (Returned (next_conn w), after_connect w).
Proof.
  intros Hm Hs. unfold get_db_connection. rewrite Hm.
  cbv beta iota delta [try_except bind environ_get ret pymysql_connect driver_called
                         round_trip].
  match goal with |- context [scheduled 0 (record_call ?c w)] =>
    change (scheduled 0 (record_call c w)) with (scheduled 0 w) end.
  rewrite Hs. reflexivity.
Qed.

Lemma get_db_connection_refused w f :
  missing_vars (environ w) = [] -> scheduled 0 w = Some f ->
  get_db_connection w = (Raised (connect_error f), after_refusal w).
Proof.
  intros Hm Hs. unfold get_db_connection. rewrite Hm.
  cbv beta iota delta [try_except bind environ_get ret pymysql_connect driver_called
                         round_trip].
  match goal with |- context [scheduled 0 (record_call ?c w)] =>
    change (scheduled 0 (record_call c w)) with (scheduled 0 w) end.
  rewrite Hs. unfold raise. cbn [select_clause]. unfold connect_error.
  destruct f as [cls msg ap]. destruct cls; reflexivity.
Qed.

Lemma connect_error_is_not_unimplemented f :
  isinstance (connect_error f) NotImplementedError = false.
Proof. unfold connect_error. destruct f as [cls msg ap]. destruct cls; reflexivity. Qed.

Lemma get_db_connection_not_unimplemented w :
  raises_instance_of NotImplementedError (get_db_connection w) = false.
Proof.
  destruct (missing_vars (environ w)) as [|v vs] eqn:Hm.
  - destruct (scheduled 0 w) as [f|] eqn:Hs.
    + rewrite (get_db_connection_refused w f Hm Hs).
      apply connect_error_is_not_unimplemented.
    + rewrite (get_db_connection_granted w Hm Hs). reflexivity.
  - rewrite get_db_connection_missing by (rewrite Hm; discriminate). reflexivity.
Qed.

Lemma absent_is_missing env v :
  In v required_vars -> assoc v env = None -> In v (missing_vars env).
Proof.
  intros Hin Ha. unfold missing_vars. apply filter_In. split; [exact Hin | ].
  unfold unset. rewrite Ha. reflexivity.
Qed.

Lemma string_app_nil_r (s : string) : (s ++ "")%string = s.
Proof. induction s as [|c s IH]; cbn; [reflexivity | rewrite IH; reflexivity]. Qed.

Lemma string_app_assoc (a b c : string) :
  ((a ++ b) ++ c)%string = (a ++ b ++ c)%string.
Proof. induction a as [|x a IH]; cbn; [reflexivity | rewrite IH; reflexivity]. Qed.

Lemma join_names_each sep l v :
  In v l -> occurs_in v (join sep l).
Proof.
  induction l as [|x rest IH]; intros Hin; [contradiction | ].
  destruct Hin as [-> | Hin].
  - destruct rest as [|y rest'].
    + exists "", "". cbn. rewrite string_app_nil_r. reflexivity.
    + exists "", (sep ++ join sep (y :: rest'))%string. reflexivity.
  - destruct rest as [|y rest']; [contradiction | ].
    destruct (IH Hin) as [pre [post E]].
    exists (x ++ sep ++ pre)%string, post.
    change (join sep (x :: y :: rest')) with (x ++ sep ++ join sep (y :: rest'))%string.
    rewrite E. rewrite !string_app_assoc. reflexivity.
Qed.

(** ** create_db_table, by the first driver call that fails *)

Lemma create_db_table_missing w :
  missing_vars (environ w) <> [] ->
  create_db_table w
  = (Raised (mk_exn EnvironmentError (missing_message (environ w))),
     record_log ERROR (missing_message (environ w)) w).
Proof.
  intros Hm. unfold create_db_table.
  apply bind_raised. apply get_db_connection_missing. exact Hm.
Qed.

Lemma create_db_table_first_refused w f :
  missing_vars (environ w) = [] -> scheduled 0 w = Some f ->
  create_db_table w = (Raised (connect_error f), after_refusal w).
Proof.
  intros Hm H0. unfold create_db_table.
  apply bind_raised. apply get_db_connection_refused; assumption.
Qed.

Lemma schema_clause w e w' (body : M unit) :
  body w = (Raised e, w') ->
  try_except body
    [(Exception,
      fun e =>
        logging_exception "Failed to create or verify the events table" ;;
        raise (mk_exn RuntimeError ("Table creation failed: " ++ exn_msg e)))] w
  = (Raised (table_creation_failed e), record_log ERROR schema_failure_log w').
Proof.
  intros H. rewrite (try_except_raised _ _ _ _ _ H).
  cbn [select_clause]. rewrite every_exception_is_caught. reflexivity.
Qed.

Lemma create_db_table_second_refused w f :
  missing_vars (environ w) = [] ->
  scheduled 0 w = None -> scheduled 1 w = Some f ->
  create_db_table w
  = (Raised (table_creation_failed (connect_error f)), after_second_refusal w).
Proof.
  intros Hm H0 H1. unfold create_db_table.
  returned (get_db_connection_granted w Hm H0).
  apply schema_clause. unfold with_connection.
  apply bind_raised. apply get_db_connection_refused; [exact Hm | ].
  rewrite scheduled_after_connect. exact H1.
Qed.

(** The block of line 89 once both connections are there. *)
Lemma schema_block_entered w (k : nat -> M unit) :
  missing_vars (environ w) = [] ->
  scheduled 0 w = None -> scheduled 1 w = None ->
  (first <- get_db_connection ;;
   try_except
     (with_connection get_db_connection (fun connection =>
        finalize_connection first ;; k connection))
     [(Exception,
       fun e =>
         logging_exception "Failed to create or verify the events table" ;;
         raise (mk_exn RuntimeError ("Table creation failed: " ++ exn_msg e)))]) w
  = try_except
      (try_finally (k (S (next_conn w))) (connection_close (S (next_conn w))))
      [(Exception,
        fun e =>
          logging_exception "Failed to create or verify the events table" ;;
          raise (mk_exn RuntimeError ("Table creation failed: " ++ exn_msg e)))]
      (after_rebinding w).
Proof.
  intros Hm H0 H1.
  returned (get_db_connection_granted w Hm H0).
  unfold try_except, with_connection.
  assert (H1' : scheduled 0 (after_connect w) = None)
    by (rewrite scheduled_after_connect; exact H1).
  returned (get_db_connection_granted (after_connect w) Hm H1').
  unfold try_finally at 1.
  returned (finalize_connection_open _ _ (first_is_open_before_rebinding w)).
  reflexivity.
Qed.

Lemma create_db_table_create_fault w f :
  missing_vars (environ w) = [] ->
  scheduled 0 w = None -> scheduled 1 w = None -> scheduled 2 w = Some f ->
  create_db_table w
  = (Raised (table_creation_failed (fault_exn f)), after_create_fault f w).
Proof.
  intros Hm H0 H1 H2. unfold create_db_table.
  rewrite (schema_block_entered w _ Hm H0 H1).
  apply schema_clause.
  eapply try_finally_returned.
  - apply bind_raised. rewrite with_cursor_body. apply bind_raised.
    apply cursor_execute_fault;
      [reflexivity | apply second_is_open_after_rebinding | ].
    rewrite scheduled_after_rebinding. exact H2.
  - apply connection_close_ok. rewrite is_open_after_execute_fault.
    apply second_is_open_after_rebinding.
Qed.

Lemma create_table_accepted c d :
  server_execute c CreateTableIfNotExists d = inr (table_created c d, []).
Proof. reflexivity. Qed.

Lemma create_db_table_commit_fault w f :
  missing_vars (environ w) = [] ->
  scheduled 0 w = None -> scheduled 1 w = None -> scheduled 2 w = None ->
  scheduled 3 w = Some f ->
  create_db_table w
  = (Raised (table_creation_failed (fault_exn f)), after_schema_commit_fault f w).
Proof.
  intros Hm H0 H1 H2 H3. unfold create_db_table.
  rewrite (schema_block_entered w _ Hm H0 H1).
  apply schema_clause.
  eapply try_finally_returned.
  - erewrite bind_returned.
    2:{ rewrite with_cursor_body. erewrite bind_returned; [reflexivity | ].
        apply cursor_execute_ok;
          [reflexivity | apply second_is_open_after_rebinding | | apply create_table_accepted].
        rewrite scheduled_after_rebinding. exact H2. }
    apply bind_raised. apply connection_commit_fault.
    + rewrite is_open_after_execute. apply second_is_open_after_rebinding.
    + rewrite scheduled_after_execute, scheduled_after_rebinding. exact H3.
  - apply connection_close_ok.
    rewrite is_open_after_commit_fault, is_open_after_execute.
    apply second_is_open_after_rebinding.
Qed.

Lemma create_db_table_ok w :
  missing_vars (environ w) = [] ->
  scheduled 0 w = None -> scheduled 1 w = None -> scheduled 2 w = None ->
  scheduled 3 w = None ->
  create_db_table w = (Returned tt, after_create_table w).
Proof.
  intros Hm H0 H1 H2 H3. unfold create_db_table.
  rewrite (schema_block_entered w _ Hm H0 H1).
  apply try_except_returned.
  eapply try_finally_returned.
  - erewrite bind_returned.
    2:{ rewrite with_cursor_body. erewrite bind_returned; [reflexivity | ].
        apply cursor_execute_ok;
          [reflexivity | apply second_is_open_after_rebinding | | apply create_table_accepted].
        rewrite scheduled_after_rebinding. exact H2. }
    erewrite bind_returned; [reflexivity | ].
    apply connection_commit_ok.
    + rewrite is_open_after_execute. apply second_is_open_after_rebinding.
    + rewrite scheduled_after_execute, scheduled_after_rebinding. exact H3.
  - apply connection_close_ok.
    change (is_open (S (next_conn w)) (after_rebinding w) = true).
    apply second_is_open_after_rebinding.
Qed.

Lemma create_db_table_idle w :
  missing_vars (environ w) = [] -> schedule w = [] ->
  create_db_table w = (Returned tt, after_create_table w).
Proof.
  intros Hm Hs. apply create_db_table_ok; [exact Hm | | | | ];
    apply idle_schedule; exact Hs.
Qed.

(** With complete configuration the schema step ends in one of five
    ways, decided by the first of its four round trips that fails. *)
Lemma create_db_table_cases w :
  missing_vars (environ w) = [] ->
  (exists f, scheduled 0 w = Some f /\
     create_db_table w = (Raised (connect_error f), after_refusal w)) \/
  (exists f, scheduled 0 w = None /\ scheduled 1 w = Some f /\
     create_db_table w
     = (Raised (table_creation_failed (connect_error f)), after_second_refusal w)) \/
  (exists f, scheduled 0 w = None /\ scheduled 1 w = None /\ scheduled 2 w = Some f /\
     create_db_table w
     = (Raised (table_creation_failed (fault_exn f)), after_create_fault f w)) \/
  (exists f, scheduled 0 w = None /\ scheduled 1 w = None /\ scheduled 2 w = None /\
     scheduled 3 w = Some f /\
     create_db_table w
     = (Raised (table_creation_failed (fault_exn f)), after_schema_commit_fault f w)) \/
  (scheduled 0 w = None /\ scheduled 1 w = None /\ scheduled 2 w = None /\
   scheduled 3 w = None /\
   create_db_table w = (Returned tt, after_create_table w)).
Proof.
  intros Hm.
  destruct (scheduled 0 w) as [f|] eqn:H0.
  { left. exists f. split; [reflexivity | apply create_db_table_first_refused; assumption]. }
  destruct (scheduled 1 w) as [f|] eqn:H1.
  { right; left. exists f.
    repeat (split; [reflexivity | ]). apply create_db_table_second_refused; assumption. }
  destruct (scheduled 2 w) as [f|] eqn:H2.
  { right; right; left. exists f.
    repeat (split; [reflexivity | ]). apply create_db_table_create_fault; assumption. }
  destruct (scheduled 3 w) as [f|] eqn:H3.
  { right; right; right; left. exists f.
    repeat (split; [reflexivity | ]). apply create_db_table_commit_fault; assumption. }
  right; right; right; right.
  repeat (split; [reflexivity | ]). apply create_db_table_ok; assumption.
Qed.

Lemma create_db_table_not_unimplemented w :
  raises_instance_of NotImplementedError (create_db_table w) = false.
Proof.
  unfold create_db_table.
  pose proof (get_db_connection_not_unimplemented w) as H1.
  destruct (get_db_connection w) as [[c|e] w1] eqn:E1.
  - returned E1.
    match goal with |- context [try_except ?b ?cl w1] =>
      destruct (b w1) as [[u|e] w2] eqn:E2;
      [ rewrite (try_except_returned b cl w1 u w2 E2)
      | rewrite (try_except_raised b cl w1 e w2 E2) ]
    end.
    + reflexivity.
    + cbn [select_clause]. rewrite every_exception_is_caught. reflexivity.
  - raised E1. exact H1.
Qed.

(** ** fetch_data_from_db *)

Lemma line_143_raises w :
  line_143 w = (Raised (mk_exn NameError "name 'row' is not defined"), w).
Proof. reflexivity. Qed.

Lemma select_list_rejected : parse_select_list (sel_list fetch_sql) = None.
Proof. reflexivity. Qed.

Lemma fetch_sql_rejected d : run_select fetch_sql d = inl syntax_error.
Proof. unfold run_select. rewrite select_list_rejected. reflexivity. Qed.

Lemma select_always_fails cur w :
  exists e w',
    cursor_execute cur (Select fetch_sql) w = (Raised e, w') /\
    isinstance e NotImplementedError = false.
Proof.
  unfold cursor_execute.
  change (escape_args (statement_args (Select fetch_sql))) with (@None exception).
  cbv beta iota.
  destruct (is_open (cur_conn cur) w).
  - cbv beta iota delta [bind driver_called round_trip].
    destruct (scheduled 0 (record_call (CallExecute (cur_conn cur) (Select fetch_sql)) w))
      as [f|].
    + exists (fault_exn f).
      destruct (fault_applied f).
      * unfold server_unheard. cbn [server_execute]. rewrite fetch_sql_rejected.
        eexists. split; [reflexivity | apply driver_fault_is_not_unimplemented].
      * eexists. split; [reflexivity | apply driver_fault_is_not_unimplemented].
    + unfold server_answer. cbn [server_execute]. rewrite fetch_sql_rejected.
      eexists. eexists. split; reflexivity.
  - eexists. eexists. split; reflexivity.
Qed.

Lemma close_not_unimplemented c w e w' :
  connection_close c w = (Raised e, w') -> isinstance e NotImplementedError = false.
Proof.
  unfold connection_close. destruct (is_open c w); intros H; inversion H; reflexivity.
Qed.

Lemma finally_close_raises {A : Type} (body : M A) c w e w1 :
  body w = (Raised e, w1) ->
  isinstance e NotImplementedError = false ->
  exists e' w',
    try_finally body (connection_close c) w = (Raised e', w') /\
    isinstance e' NotImplementedError = false.
Proof.
  intros Hb He. unfold try_finally. rewrite Hb.
  destruct (connection_close c w1) as [[u|e2] w2] eqn:Ec.
  - exists e, w2. split; [reflexivity | exact He].
  - exists e2, w2. split; [reflexivity | ].
    eapply close_not_unimplemented. exact Ec.
Qed.

(** Every call of the list operation ends with an exception, and never
    with an instance of NotImplementedError. *)
Lemma fetch_data_from_db_raises w :
  exists e w',
    fetch_data_from_db w = (Raised e, w') /\
    isinstance e NotImplementedError = false.
Proof.
  unfold fetch_data_from_db.
  pose proof (create_db_table_not_unimplemented w) as H1.
  destruct (create_db_table w) as [[u|e] w1] eqn:E1.
  - returned E1.
    pose proof (get_db_connection_not_unimplemented w1) as H2.
    destruct (get_db_connection w1) as [[c|e] w2] eqn:E2.
    + returned E2.
      eapply finally_close_raises.
      * apply bind_raised. rewrite with_cursor_body.
        apply bind_raised. apply line_143_raises.
      * reflexivity.
    + raised E2. exists e, w2. split; [reflexivity | exact H2].
  - raised E1. exists e, w1. split; [reflexivity | exact H1].
Qed.

(** Leaving line 143 out does not let the operation return either: the
    statement it then sends is refused. *)
Lemma fetch_without_line_143_raises w :
  exists e w',
    fetch_data_from_db_without_line_143 w = (Raised e, w') /\
    isinstance e NotImplementedError = false.
Proof.
  unfold fetch_data_from_db_without_line_143.
  pose proof (create_db_table_not_unimplemented w) as H1.
  destruct (create_db_table w) as [[u|e] w1] eqn:E1.
  - returned E1.
    pose proof (get_db_connection_not_unimplemented w1) as H2.
    destruct (get_db_connection w1) as [[c|e] w2] eqn:E2.
    + returned E2.
      destruct (select_always_fails (connection_cursor c DictCursor) w2)
        as [e [w3 [E3 H3]]].
      eapply finally_close_raises.
      * apply bind_raised. rewrite with_cursor_body.
        apply bind_raised. exact E3.
      * exact H3.
    + raised E2. exists e, w2. split; [reflexivity | exact H2].
  - raised E1. exists e, w1. split; [reflexivity | exact H1].
Qed.

(** ** The handlers around the list operation *)

Lemma list_events_fails w :
  exists e w',
    fetch_data_from_db w = (Raised e, w') /\
    list_events w
    = (Returned (error_response "During events retrieval" e),
       record_log ERROR "Error occurred during events retrieval" w').
Proof.
  destruct (fetch_data_from_db_raises w) as [e [w' [E H]]].
  exists e, w'. split; [exact E | ].
  unfold list_events.
  rewrite (try_except_raised _ _ _ _ _ (bind_raised _ _ _ _ _ E)).
  cbn [select_clause]. rewrite H, every_exception_is_caught. reflexivity.
Qed.

Lemma get_data_fails w :
  exists e w',
    fetch_data_from_db w = (Raised e, w') /\
    get_data w
    = (Returned (error_response "During data retrieval" e),
       record_log ERROR "Error occurred during data retrieval" w').
Proof.
  destruct (fetch_data_from_db_raises w) as [e [w' [E H]]].
  exists e, w'. split; [exact E | ].
  unfold get_data.
  rewrite (try_except_raised _ _ _ _ _ (bind_raised _ _ _ _ _ E)).
  cbn [select_clause]. rewrite every_exception_is_caught. reflexivity.
Qed.

Lemma list_events_status w : status_of (list_events w) = Some 500.
Proof. destruct (list_events_fails w) as [e [w' [_ E]]]. rewrite E. reflexivity. Qed.

Lemma get_data_status w : status_of (get_data w) = Some 500.
Proof. destruct (get_data_fails w) as [e [w' [_ E]]]. rewrite E. reflexivity. Qed.

(** C10. GET /events never answers 501: neither the list operation nor
    the schema step nor the connection provisioner ever raises an
    instance of NotImplementedError (the RuntimeError of the schema step
    is a base class of it, not an instance), whatever the configuration,
    the database and the failures of the driver; leaving line 143 out
    changes nothing to that. *)
Theorem list_events_never_501 :
  forall w : world,
    status_of (list_events w) <> Some 501 /\
    raises_instance_of NotImplementedError (fetch_data_from_db w) = false /\
    raises_instance_of NotImplementedError (create_db_table w) = false /\
    raises_instance_of NotImplementedError (get_db_connection w) = false /\
    raises_instance_of NotImplementedError (fetch_data_from_db_without_line_143 w) = false.
Proof.
  intros w. repeat split.
  - rewrite list_events_status. discriminate.
  - destruct (fetch_data_from_db_raises w) as [e [w' [E H]]].
    unfold raises_instance_of, raised_by. rewrite E. exact H.
  - apply create_db_table_not_unimplemented.
  - apply get_db_connection_not_unimplemented.
  - destruct (fetch_without_line_143_raises w) as [e [w' [E H]]].
    unfold raises_instance_of, raised_by. rewrite E. exact H.
Qed.

(** ** POST /events: the accepted payload *)

Lemma truthy_not_null v : truthy v = true -> is_null v = false.
Proof. destruct v; cbn; intros H; try reflexivity; discriminate H. Qed.

Lemma valid_payload_shape v :
  lacks_required v = false ->
  exists items,
    v = JObj items /\
    truthy (dict_get items "title") = true /\
    truthy (dict_get items "date") = true /\
    truthy v = true.
Proof.
  unfold lacks_required. intros H. apply orb_false_iff in H. destruct H as [Ht Hd].
  apply negb_false_iff in Ht. apply negb_false_iff in Hd.
  destruct v as [ | | | | | | items]; try discriminate Ht.
  exists items. repeat split; try assumption.
  destruct items; [discriminate Ht | reflexivity].
Qed.

Lemma dict_payload items : py_or (JObj items) (JObj []) = JObj items.
Proof. destruct items; reflexivity. Qed.

(** A payload that passes the check is handed to the repository, and
    whatever the repository raises becomes a 500 response. *)
Lemma create_event_accepts w b items :
  payload_of b = JObj items ->
  truthy (dict_get items "title") = true ->
  truthy (dict_get items "date") = true ->
  create_event b w
  = match insert_data_into_db (JObj items) w with
    | (Returned _, w') => (Returned created_response, w')
    | (Raised e, w') =>
        (Returned (error_response "During event creation" e),
         record_log ERROR "Error occurred during event creation" w')
    end.
Proof.
  intros Hp Ht Hd.
  destruct (payload_is_parsed b _ Hp) as [He Hy]; [discriminate | ].
  unfold create_event, try_except.
  returned (request_get_json_parsed b w He). rewrite Hy.
  cbn [py_get]. unfold bind at 1 2, ret at 1 2.
  rewrite Ht, Hd. cbn [negb orb]. unfold bind at 1.
  destruct (insert_data_into_db (JObj items) w) as [[u|e] w1].
  - reflexivity.
  - cbn [select_clause]. rewrite every_exception_is_caught. reflexivity.
Qed.

Lemma insert_accepted c t de im da lo d :
  table_exists d = true -> truthy t = true -> truthy da = true ->
  server_execute c (InsertEvent t de im da lo) d
  = inr (row_inserted c (mk_row (next_id d) t de im da lo) d, []).
Proof.
  intros He Ht Hd. unfold server_execute.
  rewrite He, (truthy_not_null _ Ht), (truthy_not_null _ Hd). reflexivity.
Qed.

Lemma insert_data_into_db_ok w items :
  missing_vars (environ w) = [] -> schedule w = [] ->
  truthy (dict_get items "title") = true ->
  truthy (dict_get items "date") = true ->
  escape_args (insert_args items) = None ->
  insert_data_into_db (JObj items) w
  = (Returned tt,
     after_insert (dict_get items "title") (dict_get items "description")
                  (dict_get items "image_url") (dict_get items "date")
                  (dict_get items "location") w).
Proof.
  intros Hm Hs Ht Hd He. unfold insert_data_into_db.
  returned (create_db_table_idle w Hm Hs).
  assert (Hi : forall n, scheduled n (after_create_table w) = None).
  { intros n. rewrite scheduled_after_create_table. apply idle_schedule. exact Hs. }
  returned (get_db_connection_granted (after_create_table w) Hm (Hi 0%nat)).
  eapply try_finally_returned.
  - erewrite bind_returned.
    2:{ rewrite with_cursor_body. cbn [py_get].
        do 5 (erewrite bind_returned by reflexivity).
        erewrite bind_returned; [reflexivity | ].
        apply cursor_execute_ok;
          [exact He | apply newest_is_open | | ].
        - rewrite scheduled_after_connect. apply Hi.
        - apply insert_accepted; [reflexivity | exact Ht | exact Hd]. }
    apply connection_commit_ok.
    + rewrite is_open_after_execute. apply newest_is_open.
    + rewrite scheduled_after_execute, scheduled_after_connect. apply Hi.
  - apply connection_close_ok.
    rewrite is_open_after_commit, is_open_after_execute. apply newest_is_open.
Qed.

(** ** What a run without failures leaves behind *)

Lemma db_after_connect w : db (after_connect w) = db w.
Proof. reflexivity. Qed.

Lemma db_after_rebinding w : db (after_rebinding w) = rollback_pending (next_conn w) (db w).
Proof. reflexivity. Qed.

Lemma db_after_execute c s d w : db (after_execute c s d w) = d.
Proof. reflexivity. Qed.

Lemma db_after_commit c w : db (after_commit c w) = commit_pending c (db w).
Proof. reflexivity. Qed.

Lemma db_after_close c w : db (after_close c w) = rollback_pending c (db w).
Proof. reflexivity. Qed.

Lemma db_record_log l msg w : db (record_log l msg w) = db w.
Proof. reflexivity. Qed.

Lemma next_conn_after_create_table w :
  next_conn (after_create_table w) = S (S (next_conn w)).
Proof. reflexivity. Qed.

Lemma environ_after_create_table w : environ (after_create_table w) = environ w.
Proof. reflexivity. Qed.

Lemma db_after_create_table w :
  pending (db w) = [] ->
  db (after_create_table w) = mk_db true (rows (db w)) (next_id (db w)) [].
Proof.
  intros Hp. unfold after_create_table. cbv zeta.
  rewrite db_after_close, db_record_log, db_after_commit, db_after_execute,
    db_after_rebinding.
  destruct (db w) as [te rs ni pe]. cbn [pending] in Hp. subst pe.
  unfold table_created, commit_pending, rollback_pending.
  cbn [rows next_id pending table_exists filter map]. rewrite !app_nil_r. reflexivity.
Qed.

Lemma rows_after_insert t de im da lo w :
  pending (db w) = [] ->
  rows (db (after_insert t de im da lo w))
  = rows (db w) ++ [mk_row (next_id (db w)) t de im da lo].
Proof.
  intros Hp. unfold after_insert. cbv zeta.
  rewrite db_after_close, db_after_commit, db_after_execute, db_after_connect,
    next_conn_after_create_table, (db_after_create_table w Hp).
  unfold row_inserted, commit_pending, rollback_pending.
  cbn [rows next_id pending table_exists filter map app fst snd].
  rewrite Nat.eqb_refl. cbn [negb filter map snd app]. reflexivity.
Qed.

Lemma trace_after_connect w :
  trace (after_connect w) = trace w ++ [connect_call (environ w)].
Proof. reflexivity. Qed.

Lemma trace_after_rebinding w :
  trace (after_rebinding w)
  = trace w ++ [connect_call (environ w); connect_call (environ w)].
Proof.
  change (trace (after_rebinding w)) with (trace (after_connect (after_connect w))).
  rewrite !trace_after_connect. rewrite <- app_assoc. reflexivity.
Qed.

Lemma trace_after_execute c s d w :
  trace (after_execute c s d w) = trace w ++ [CallExecute c s].
Proof. reflexivity. Qed.

Lemma trace_after_commit c w : trace (after_commit c w) = trace w ++ [CallCommit c].
Proof. reflexivity. Qed.

Lemma trace_after_close c w : trace (after_close c w) = trace w ++ [CallClose c].
Proof. reflexivity. Qed.

Lemma trace_record_log l msg w : trace (record_log l msg w) = trace w.
Proof. reflexivity. Qed.

Lemma trace_after_create_table w :
  trace (after_create_table w)
  = trace w ++ [connect_call (environ w); connect_call (environ w);
                CallExecute (S (next_conn w)) CreateTableIfNotExists;
                CallCommit (S (next_conn w)); CallClose (S (next_conn w))].
Proof.
  unfold after_create_table. cbv zeta.
  rewrite trace_after_close, trace_record_log, trace_after_commit, trace_after_execute,
    trace_after_rebinding.
  rewrite <- !app_assoc. reflexivity.
Qed.

Lemma trace_after_insert t de im da lo w :
  trace (after_insert t de im da lo w)
  = trace w ++ [connect_call (environ w); connect_call (environ w);
                CallExecute (S (next_conn w)) CreateTableIfNotExists;
                CallCommit (S (next_conn w)); CallClose (S (next_conn w));
                connect_call (environ w);
                CallExecute (S (S (next_conn w))) (InsertEvent t de im da lo);
                CallCommit (S (S (next_conn w))); CallClose (S (S (next_conn w)))].
Proof.
  unfold after_insert. cbv zeta.
  rewrite trace_after_close, trace_after_commit, trace_after_execute, trace_after_connect,
    next_conn_after_create_table, environ_after_create_table, trace_after_create_table.
  rewrite <- !app_assoc. reflexivity.
Qed.

Lemma trace_after_second_refusal w :
  trace (after_second_refusal w)
  = trace w ++ [connect_call (environ w); connect_call (environ w)].
Proof.
  change (trace (after_second_refusal w))
    with (trace (after_connect w) ++ [connect_call (environ w)]).
  rewrite trace_after_connect, <- app_assoc. reflexivity.
Qed.

Lemma open_before_drop c d w :
  is_open c (drop_connection d w) = true -> is_open c w = true.
Proof.
  unfold is_open, drop_connection. cbn [open_conns set_db set_conns].
  intros H. apply existsb_exists in H. destruct H as [x [Hin Hx]].
  apply filter_In in Hin. apply existsb_exists. exists x. split; [apply Hin | exact Hx].
Qed.

Lemma first_connection_is_finalised w :
  is_open (next_conn w) (after_create_table w) = false.
Proof.
  destruct (is_open (next_conn w) (after_create_table w)) eqn:E; [ | reflexivity].
  unfold after_create_table, after_close in E. cbv zeta in E.
  apply open_before_drop in E.
  change (is_open (next_conn w)
            (drop_connection (next_conn w) (after_connect (after_connect w))) = true) in E.
  rewrite dropped_is_not_open in E. discriminate E.
Qed.

Lemma first_connection_is_held w :
  is_open (next_conn w) (after_second_refusal w) = true.
Proof. exact (newest_is_open w). Qed.

(** ** Create, then List *)

(** C1. For a payload with non-empty title and date, complete
    configuration and no failing driver call, POST /events answers 201,
    runs the schema step before the INSERT, and adds exactly one row
    holding the payload's five values, NULL for those left out. The
    list operation that follows returns no sequence: GET /events and
    GET /data answer 500. *)
Theorem create_then_list_fails :
  forall w items,
    missing_vars (environ w) = [] -> schedule w = [] -> pending (db w) = [] ->
    truthy (dict_get items "title") = true ->
    truthy (dict_get items "date") = true ->
    escape_args (insert_args items) = None ->
    exists w1,
      create_event (JsonBody (JObj items)) w = (Returned created_response, w1) /\
      rows (db w1) = rows (db w) ++ [row_of (next_id (db w)) items] /\
      trace w1
      = trace w ++ [connect_call (environ w); connect_call (environ w);
                    CallExecute (S (next_conn w)) CreateTableIfNotExists;
                    CallCommit (S (next_conn w)); CallClose (S (next_conn w));
                    connect_call (environ w);
                    CallExecute (S (S (next_conn w)))
                      (InsertEvent (dict_get items "title") (dict_get items "description")
                         (dict_get items "image_url") (dict_get items "date")
                         (dict_get items "location"));
                    CallCommit (S (S (next_conn w))); CallClose (S (S (next_conn w)))] /\
      status_of (list_events w1) = Some 500 /\
      status_of (get_data w1) = Some 500.
Proof.
  intros w items Hm Hs Hp Ht Hd He.
  eexists. split.
  - rewrite (create_event_accepts w (JsonBody (JObj items)) items (dict_payload items) Ht Hd).
    rewrite (insert_data_into_db_ok w items Hm Hs Ht Hd He). reflexivity.
  - split; [apply rows_after_insert; exact Hp | ].
    split; [apply trace_after_insert | ].
    split; [apply list_events_status | apply get_data_status].
Qed.

Lemma create_then_list_fails_witness :
  exists w1,
    create_event (JsonBody launch_payload) fresh_world = (Returned created_response, w1) /\
    rows (db w1) = [mk_row 1 (JStr "Launch") JNull JNull (JStr "2024-07-01") JNull] /\
    status_of (list_events w1) = Some 500.
Proof.
  destruct (create_then_list_fails fresh_world
              [("title", JStr "Launch"); ("date", JStr "2024-07-01")]
              eq_refl eq_refl eq_refl eq_refl eq_refl eq_refl)
    as [w1 [Hc [Hr [_ [Hl _]]]]].
  exists w1. split; [exact Hc | split; [exact Hr | exact Hl]].
Defined.

(** ** Connections *)

(** C8. The schema step, which every repository call runs first, opens
    two connections (lines 87 and 89) and has a close for the second
    only.  When no driver call fails the first is released all the
    same, not by the program but by the interpreter, which finalises the
    object when line 89 rebinds its name: the step returns with that
    connection gone, its trace showing two connects and one close.  When
    the second connection is refused nothing releases the first: the
    schema step, and with it the list and the insert operation, ends
    with an exception, no close having been called, and with the
    connection of line 87 still open. *)
Theorem create_db_table_abandons_first_connection :
  forall w,
    missing_vars (environ w) = [] ->
    (schedule w = [] ->
       create_db_table w = (Returned tt, after_create_table w) /\
       trace (after_create_table w)
       = trace w ++ [connect_call (environ w); connect_call (environ w);
                     CallExecute (S (next_conn w)) CreateTableIfNotExists;
                     CallCommit (S (next_conn w)); CallClose (S (next_conn w))] /\
       is_open (next_conn w) (after_create_table w) = false) /\
    (forall f rest,
       schedule w = None :: Some f :: rest ->
       exists e w',
         create_db_table w = (Raised e, w') /\
         fetch_data_from_db w = (Raised e, w') /\
         (forall payload, insert_data_into_db payload w = (Raised e, w')) /\
         is_open (next_conn w) w' = true /\
         trace w' = trace w ++ [connect_call (environ w); connect_call (environ w)]).
Proof.
  intros w Hm. split.
  - intros Hs.
    split; [apply create_db_table_idle; assumption | ].
    split; [apply trace_after_create_table | apply first_connection_is_finalised].
  - intros f rest Hs.
    pose proof (create_db_table_second_refused w f Hm
                  (scheduled_head w _ _ Hs) (scheduled_second w _ _ _ Hs)) as E.
    exists (table_creation_failed (connect_error f)), (after_second_refusal w).
    split; [exact E | ].
    split; [unfold fetch_data_from_db; apply bind_raised; exact E | ].
    split; [intros payload; unfold insert_data_into_db; apply bind_raised; exact E | ].
    split; [apply first_connection_is_held | apply trace_after_second_refusal].
Qed.

Lemma create_db_table_abandons_first_connection_witness :
  raised_by (create_db_table flaky_world)
  = Some (mk_exn RuntimeError
            "Table creation failed: Failed to connect to the database: (2003, 'Cannot connect to MySQL server')") /\
  open_conns (snd (create_db_table flaky_world)) = [0%nat] /\
  open_conns (snd (fetch_data_from_db flaky_world)) = [0%nat] /\
  existsb is_close_call (trace (snd (create_db_table flaky_world))) = false.
Proof.
  destruct (proj2 (create_db_table_abandons_first_connection flaky_world eq_refl)
              _ _ eq_refl) as [e [w' [Hc [Hf [_ [_ Ht]]]]]].
  rewrite Hf, Hc. cbn [snd]. rewrite Ht.
  injection Hc as <- <-. repeat split; reflexivity.
Defined.

(** On the same exit of the fresh world every connection the step
    opened is gone when it returns. *)
Example schema_step_returns_with_nothing_open :
  fst (create_db_table fresh_world) = Returned tt /\
  open_conns (snd (create_db_table fresh_world)) = [] /\
  next_conn (snd (create_db_table fresh_world)) = 2%nat /\
  filter is_close_call (trace (snd (create_db_table fresh_world))) = [CallClose 1].
Proof. vm_compute. repeat split; reflexivity. Qed.

(** ** Incomplete configuration *)

Lemma missing_message_names env v :
  In v required_vars -> assoc v env = None -> occurs_in v (missing_message env).
Proof.
  intros Hin Ha.
  destruct (join_names_each ", " (missing_vars env) v (absent_is_missing env v Hin Ha))
    as [pre [post E]].
  exists ("Missing environment variables: " ++ pre)%string, post.
  unfold missing_message. rewrite E. rewrite string_app_assoc. reflexivity.
Qed.

Lemma fetch_data_from_db_missing w :
  missing_vars (environ w) <> [] ->
  fetch_data_from_db w
  = (Raised (mk_exn EnvironmentError (missing_message (environ w))),
     record_log ERROR (missing_message (environ w)) w).
Proof.
  intros Hm. unfold fetch_data_from_db. apply bind_raised.
  apply create_db_table_missing. exact Hm.
Qed.

(** C7. When one of DB_HOST, DB_USER, DB_PASSWORD, DB_NAME is absent,
    the connection provisioner raises an error whose text names every
    absent key, without calling the driver; GET /events, GET /data and a
    POST /events that passes validation each return a 500 response, the
    driver not having been called. *)
Theorem missing_configuration_fails :
  forall w var,
    In var required_vars -> assoc var (environ w) = None ->
    get_db_connection w
    = (Raised (mk_exn EnvironmentError (missing_message (environ w))),
       record_log ERROR (missing_message (environ w)) w) /\
    (forall v, In v required_vars -> assoc v (environ w) = None ->
               occurs_in v (missing_message (environ w))) /\
    list_events w
    = (Returned (error_response "During events retrieval"
                   (mk_exn EnvironmentError (missing_message (environ w)))),
       record_log ERROR "Error occurred during events retrieval"
         (record_log ERROR (missing_message (environ w)) w)) /\
    get_data w
    = (Returned (error_response "During data retrieval"
                   (mk_exn EnvironmentError (missing_message (environ w)))),
       record_log ERROR "Error occurred during data retrieval"
         (record_log ERROR (missing_message (environ w)) w)) /\
    (forall b, lacks_required (get_json_force_silent b) = false ->
       create_event b w
       = (Returned (error_response "During event creation"
                      (mk_exn EnvironmentError (missing_message (environ w)))),
          record_log ERROR "Error occurred during event creation"
            (record_log ERROR (missing_message (environ w)) w))).
Proof.
  intros w var Hin Ha.
  assert (Hm : missing_vars (environ w) <> []).
  { intros E. pose proof (absent_is_missing _ _ Hin Ha) as H. rewrite E in H. exact H. }
  split; [apply get_db_connection_missing; exact Hm | ].
  split; [intros v Hv Hav; apply missing_message_names; assumption | ].
  split; [ | split].
  - unfold list_events.
    rewrite (try_except_raised _ _ _ _ _
               (bind_raised _ _ _ _ _ (fetch_data_from_db_missing w Hm))).
    reflexivity.
  - unfold get_data.
    rewrite (try_except_raised _ _ _ _ _
               (bind_raised _ _ _ _ _ (fetch_data_from_db_missing w Hm))).
    reflexivity.
  - intros b Hb.
    destruct (valid_payload_shape _ Hb) as [items [Hp [Ht [Hd _]]]].
    assert (Hy : payload_of b = JObj items).
    { destruct b; try discriminate Hp. cbn in Hp. subst v. apply dict_payload. }
    rewrite (create_event_accepts w b items Hy Ht Hd).
    unfold insert_data_into_db.
    raised (create_db_table_missing w Hm).
    reflexivity.
Qed.

Lemma missing_configuration_fails_witness :
  raised_by (get_db_connection partial_world)
  = Some (mk_exn EnvironmentError "Missing environment variables: DB_PASSWORD, DB_NAME") /\
  occurs_in "DB_PASSWORD" (missing_message (environ partial_world)) /\
  status_of (list_events partial_world) = Some 500 /\
  trace (snd (list_events partial_world)) = [].
Proof.
  destruct (missing_configuration_fails partial_world "DB_PASSWORD"
              (or_intror (or_intror (or_introl eq_refl))) eq_refl)
    as [Hg [Hn [Hl _]]].
  split; [rewrite Hg; reflexivity | ].
  split; [apply Hn; [right; right; left; reflexivity | reflexivity] | ].
  split; rewrite Hl; reflexivity.
Defined.

(** ** Line 143 *)

(** C9. Line 143 is reached by every list operation that gets its
    connection, and it ends the operation: with the line the call raises
    NameError before any SELECT is sent, and GET /events reports that
    error; without the line the SELECT reaches the server, which refuses
    it, and a different error is reported. *)
Theorem line_143_is_not_dead :
  raised_by (fetch_data_from_db fresh_world)
  = Some (mk_exn NameError "name 'row' is not defined") /\
  existsb is_select_call (trace (snd (fetch_data_from_db fresh_world))) = false /\
  raised_by (fetch_data_from_db_without_line_143 fresh_world)
  = Some (fault_exn syntax_error) /\
  existsb is_select_call (trace (snd (fetch_data_from_db_without_line_143 fresh_world)))
  = true /\
  fst (list_events fresh_world)
  = Returned (error_response "During events retrieval"
                (mk_exn NameError "name 'row' is not defined")).
Proof. repeat split; reflexivity. Qed.

(** ** Listing *)

(** C3. The list operation returns no rows in any order: every call
    ends with an exception, with line 143 and without it, because the
    select list as written (no comma before [location]) is refused by
    the server. For the two events of the specification's example,
    GET /events answers 500. *)
Theorem list_returns_no_rows :
  (forall w, exists e w', fetch_data_from_db w = (Raised e, w')) /\
  (forall w, exists e w', fetch_data_from_db_without_line_143 w = (Raised e, w')) /\
  (forall d, run_select fetch_sql d = inl syntax_error) /\
  fst (list_events (world_with_rows [june_event; may_event] 3))
  = Returned (error_response "During events retrieval"
                (mk_exn NameError "name 'row' is not defined")) /\
  raised_by (fetch_data_from_db_without_line_143 (world_with_rows [june_event; may_event] 3))
  = Some (fault_exn syntax_error).
Proof.
  split; [ | split; [ | split; [ | split]]].
  - intros w. destruct (fetch_data_from_db_raises w) as [e [w' [E _]]].
    exists e, w'. exact E.
  - intros w. destruct (fetch_without_line_143_raises w) as [e [w' [E _]]].
    exists e, w'. exact E.
  - apply fetch_sql_rejected.
  - reflexivity.
  - reflexivity.
Qed.

(** C4. No date is ever rendered: GET /events and GET /data answer 500
    in every world, so neither the row dated 2024-06-15 nor a row with a
    null date is reported. *)
Theorem list_renders_no_date :
  (forall w, status_of (list_events w) = Some 500 /\ status_of (get_data w) = Some 500) /\
  fst (list_events (world_with_rows [mid_june_event] 4))
  = Returned (error_response "During events retrieval"
                (mk_exn NameError "name 'row' is not defined")) /\
  fst (get_data (world_with_rows [mid_june_event] 4))
  = Returned (error_response "During data retrieval"
                (mk_exn NameError "name 'row' is not defined")) /\
  fst (get_data (world_with_rows [undated_event] 5))
  = Returned (error_response "During data retrieval"
                (mk_exn NameError "name 'row' is not defined")).
Proof.
  split; [ | repeat split; reflexivity].
  intros w. split; [apply list_events_status | apply get_data_status].
Qed.

(** ** What the statement was written for *)

(** The format string of the SELECT renders 2024-06-15 as the
    specification says, and a NULL date as NULL. *)
Remark date_format_renders_http_date :
  date_format_cell (JStr "2024-06-15") http_date_format
  = JStr "Sat, 15 Jun 2024 00:00:00 GMT" /\
  date_format_cell (JStr "2024-07-01") http_date_format
  = JStr "Mon, 01 Jul 2024 00:00:00 GMT" /\
  date_format_cell JNull http_date_format = JNull.
Proof. repeat split; vm_compute; reflexivity. Qed.

(** With the comma restored the server accepts the statement and
    returns the six columns.  The key [date] of its ORDER BY then names
    the select item aliased [date], the rendered text, so the rows come
    in the order of that text: the event of 2024-06-01 ("Sat, ...")
    before the event of 2024-05-01 ("Wed, ..."). *)
Remark intended_select_orders_by_rendered_text :
  run_select intended_sql (mk_db true [may_event; june_event] 3 [])
  = inr [ [("id", JInt 2); ("title", JStr "Summer"); ("description", JNull);
           ("image_url", JNull); ("date", JStr "Sat, 01 Jun 2024 00:00:00 GMT");
           ("location", JNull)];
          [("id", JInt 1); ("title", JStr "May Day"); ("description", JNull);
           ("image_url", JNull); ("date", JStr "Wed, 01 May 2024 00:00:00 GMT");
           ("location", JNull)] ].
Proof. vm_compute. reflexivity. Qed.

(* ================================================================== *)
(** * Further properties of the functions *)

(** ** Reasoning about invariants *)

Lemma preserves_ret {A : Type} (P : world -> Prop) (a : A) : preserves P (ret a).
Proof. intros w H. exact H. Qed.

Lemma preserves_raise {A : Type} (P : world -> Prop) e : preserves P (@raise A e).
Proof. intros w H. exact H. Qed.

Lemma preserves_bind {A B : Type} (P : world -> Prop) (m : M A) (k : A -> M B) :
  preserves P m -> (forall a, preserves P (k a)) -> preserves P (bind m k).
Proof.
  intros Hm Hk w H. unfold bind. specialize (Hm w H).
  destruct (m w) as [[a|e] w1]; cbn [snd] in *.
  - apply Hk. exact Hm.
  - exact Hm.
Qed.

Lemma preserves_try_finally {A : Type} (P : world -> Prop) (body : M A) cleanup :
  preserves P body -> preserves P cleanup -> preserves P (try_finally body cleanup).
Proof.
  intros Hb Hc w H. unfold try_finally. specialize (Hb w H).
  destruct (body w) as [r w1]; cbn [snd] in *.
  specialize (Hc w1 Hb). destruct (cleanup w1) as [[u|e] w2]; exact Hc.
Qed.

Lemma preserves_select_clause {A : Type} (P : world -> Prop) e
    (clauses : list (exn_class * (exception -> M A))) :
  Forall (fun c => forall e', preserves P (snd c e')) clauses ->
  preserves P (select_clause e clauses).
Proof.
  induction 1 as [|[cls h] rest Hh _ IH]; cbn [select_clause].
  - apply preserves_raise.
  - destruct (isinstance e cls); [apply Hh | exact IH].
Qed.

Lemma preserves_try_except {A : Type} (P : world -> Prop) (body : M A) clauses :
  preserves P body ->
  Forall (fun c => forall e, preserves P (snd c e)) clauses ->
  preserves P (try_except body clauses).
Proof.
  intros Hb Hc w H. unfold try_except. specialize (Hb w H).
  destruct (body w) as [[a|e] w1]; cbn [snd] in *.
  - exact Hb.
  - apply preserves_select_clause; assumption.
Qed.

Lemma preserves_with_cursor {A : Type} (P : world -> Prop) c cls (body : cursor -> M A) :
  (forall cur, preserves P (body cur)) -> preserves P (with_cursor c cls body).
Proof.
  intros H. unfold with_cursor. apply preserves_try_finally; [apply H | apply preserves_ret].
Qed.

(** ** The outcomes of the driver calls *)

Lemma get_db_connection_cases w :
  (missing_vars (environ w) <> [] /\
   get_db_connection w
   = (Raised (mk_exn EnvironmentError (missing_message (environ w))),
      record_log ERROR (missing_message (environ w)) w)) \/
  (exists f, missing_vars (environ w) = [] /\ scheduled 0 w = Some f /\
     get_db_connection w = (Raised (connect_error f), after_refusal w)) \/
  (missing_vars (environ w) = [] /\ scheduled 0 w = None /\
   get_db_connection w = (Returned (next_conn w), after_connect w)).
Proof.
  destruct (missing_vars (environ w)) as [|v vs] eqn:Hm.
  - destruct (scheduled 0 w) as [f|] eqn:Hs.
    + right; left. exists f. repeat split.
      apply get_db_connection_refused; assumption.
    + right; right. repeat split. apply get_db_connection_granted; assumption.
  - left. split; [discriminate | ].
    apply get_db_connection_missing. rewrite Hm. discriminate.
Qed.

Lemma execute_cases cur s w :
  (exists e, cursor_execute cur s w = (Raised e, w)) \/
  (exists f, is_open (cur_conn cur) w = true /\ scheduled 0 w = Some f /\
     cursor_execute cur s w
     = (Raised (fault_exn f), after_execute_fault (cur_conn cur) s f w)) \/
  (is_open (cur_conn cur) w = true /\ scheduled 0 w = None /\
   cursor_execute cur s w
   = server_answer cur s (advance (record_call (CallExecute (cur_conn cur) s) w))).
Proof.
  unfold cursor_execute.
  destruct (escape_args (statement_args s)); [left; eexists; reflexivity | ].
  destruct (is_open (cur_conn cur) w); [ | left; eexists; reflexivity].
  cbv beta iota delta [bind driver_called round_trip].
  change (scheduled 0 (record_call (CallExecute (cur_conn cur) s) w))
    with (scheduled 0 w).
  destruct (scheduled 0 w) as [f|].
  - right; left. exists f. split; [reflexivity | split; [reflexivity | ]].
    unfold after_execute_fault, server_unheard, ret, raise.
    destruct (fault_applied f); [ | reflexivity].
    destruct (server_execute (cur_conn cur) s
                (db (advance (record_call (CallExecute (cur_conn cur) s) w))))
      as [f'|[d rs]]; reflexivity.
  - right; right. repeat split.
Qed.

Lemma commit_cases c w :
  (is_open c w = false /\ connection_commit c w = (Raised closed_connection, w)) \/
  (exists f, is_open c w = true /\ scheduled 0 w = Some f /\
     connection_commit c w = (Raised (fault_exn f), after_commit_fault c f w)) \/
  (is_open c w = true /\ scheduled 0 w = None /\
   connection_commit c w = (Returned tt, after_commit c w)).
Proof.
  destruct (is_open c w) eqn:Ho.
  - destruct (scheduled 0 w) as [f|] eqn:Hs.
    + right; left. exists f. repeat split. apply connection_commit_fault; assumption.
    + right; right. repeat split. apply connection_commit_ok; assumption.
  - left. split; [reflexivity | ]. unfold connection_commit. rewrite Ho. reflexivity.
Qed.

Lemma execute_framed cur s w : framed w (snd (cursor_execute cur s w)).
Proof.
  destruct (execute_cases cur s w) as [[e E] | [[f [_ [_ E]]] | [_ [_ E]]]]; rewrite E;
    cbn [snd].
  - repeat split. left. reflexivity.
  - unfold after_execute_fault. destruct (fault_applied f).
    + destruct (server_execute _ _ _) as [f'|[d rs]]; repeat split; right; reflexivity.
    + repeat split; right; reflexivity.
  - unfold server_answer. destruct (server_execute _ _ _) as [f'|[d rs]];
      repeat split; right; reflexivity.
Qed.

Lemma commit_framed c w : framed w (snd (connection_commit c w)).
Proof.
  destruct (commit_cases c w) as [[_ E] | [[f [_ [_ E]]] | [_ [_ E]]]]; rewrite E;
    cbn [snd].
  - repeat split. left. reflexivity.
  - unfold after_commit_fault. destruct (fault_applied f); repeat split; right; reflexivity.
  - repeat split. right. reflexivity.
Qed.

(** ** What the driver calls do to the table *)

Lemma get_db_connection_db w : db (snd (get_db_connection w)) = db w.
Proof.
  destruct (get_db_connection_cases w) as [[_ E] | [[f [_ [_ E]]] | [_ [_ E]]]];
    rewrite E; reflexivity.
Qed.

Lemma stored_get_db_connection R N : preserves (stored R N) get_db_connection.
Proof.
  intros w H. unfold stored in *. rewrite get_db_connection_db. exact H.
Qed.

Lemma stored_drop R N c w : stored R N w -> stored R N (drop_connection c w).
Proof.
  intros [Hr [Hn Hp]]. unfold stored, drop_connection.
  cbn [db set_db rollback_pending rows next_id pending set_conns].
  rewrite Hp. auto.
Qed.

Lemma stored_close R N c : preserves (stored R N) (connection_close c).
Proof.
  intros w H. unfold connection_close.
  destruct (is_open c w); cbn [snd]; [ | exact H].
  apply stored_drop. exact H.
Qed.

Lemma stored_finalize R N c : preserves (stored R N) (finalize_connection c).
Proof.
  intros w H. unfold finalize_connection.
  destruct (is_open c w); cbn [snd]; [ | exact H].
  apply stored_drop. exact H.
Qed.

Lemma stored_after_commit R N c w : stored R N w -> stored R N (after_commit c w).
Proof.
  intros [Hr [Hn Hp]]. unfold stored, after_commit, commit_pending.
  cbn [db set_db rows next_id pending advance set_schedule record_call].
  rewrite Hp. cbn [filter map]. rewrite app_nil_r. auto.
Qed.

Lemma stored_commit R N c : preserves (stored R N) (connection_commit c).
Proof.
  intros w H.
  destruct (commit_cases c w) as [[_ E] | [[f [_ [_ E]]] | [_ [_ E]]]]; rewrite E;
    cbn [snd].
  - exact H.
  - unfold after_commit_fault. destruct (fault_applied f);
      [apply stored_after_commit; exact H | exact H].
  - apply stored_after_commit. exact H.
Qed.

(** A statement that is not an INSERT leaves the rows as they are. *)
Lemma server_reads c s d d' rs :
  (forall t de im da lo, s <> InsertEvent t de im da lo) ->
  pending d = [] ->
  server_execute c s d = inr (d', rs) ->
  rows d' = rows d /\ next_id d' = next_id d /\ pending d' = [].
Proof.
  intros Hs Hp. destruct s as [ | t de im da lo | q]; cbn [server_execute].
  - intros H. injection H as <- _. unfold commit_pending.
    cbn [rows next_id pending]. rewrite Hp. cbn [filter map]. rewrite app_nil_r. auto.
  - exfalso. eapply Hs. reflexivity.
  - destruct (run_select q d); intros H; [discriminate H | ].
    injection H as <- _. auto.
Qed.

Lemma stored_execute R N cur s :
  (forall t de im da lo, s <> InsertEvent t de im da lo) ->
  preserves (stored R N) (cursor_execute cur s).
Proof.
  intros Hs w H. pose proof H as [Hr [Hn Hp]].
  destruct (execute_cases cur s w) as [[e E] | [[f [_ [_ E]]] | [_ [_ E]]]]; rewrite E;
    cbn [snd].
  - exact H.
  - unfold after_execute_fault. destruct (fault_applied f); [ | exact H].
    destruct (server_execute _ _ _) as [f'|[d rs]] eqn:Ex; [exact H | ].
    destruct (server_reads _ _ _ _ _ Hs Hp Ex) as [Hr' [Hn' Hp']].
    unfold stored. cbn [db set_db]. rewrite Hr', Hn'. auto.
  - unfold server_answer.
    destruct (server_execute _ _ _) as [f'|[d rs]] eqn:Ex; [exact H | ].
    destruct (server_reads _ _ _ _ _ Hs Hp Ex) as [Hr' [Hn' Hp']].
    unfold stored. cbn [snd db set_db]. rewrite Hr', Hn'. auto.
Qed.

Lemma stored_create_db_table R N : preserves (stored R N) create_db_table.
Proof.
  unfold create_db_table.
  apply preserves_bind; [apply stored_get_db_connection | intros first].
  apply preserves_try_except.
  - unfold with_connection.
    apply preserves_bind; [apply stored_get_db_connection | intros c].
    apply preserves_try_finally; [ | apply stored_close].
    apply preserves_bind; [apply stored_finalize | intros _].
    apply preserves_bind.
    + apply preserves_with_cursor. intros cur.
      apply preserves_bind; [ | intros; apply preserves_ret].
      apply stored_execute. intros; discriminate.
    + intros _. apply preserves_bind; [apply stored_commit | intros _].
      intros w H. exact H.
  - apply Forall_cons; [ | apply Forall_nil]. intros e. cbn [snd].
    apply preserves_bind; [intros w H; exact H | intros; apply preserves_raise].
Qed.

Lemma stored_fetch_data_from_db R N : preserves (stored R N) fetch_data_from_db.
Proof.
  unfold fetch_data_from_db.
  apply preserves_bind; [apply stored_create_db_table | intros _].
  apply preserves_bind; [apply stored_get_db_connection | intros c].
  apply preserves_try_finally; [ | apply stored_close].
  apply preserves_bind; [ | intros; apply preserves_ret].
  apply preserves_with_cursor. intros cur.
  apply preserves_bind; [intros w H; unfold line_143, load_global; exact H | intros _].
  apply preserves_bind; [ | intros; apply preserves_ret].
  apply stored_execute. intros; discriminate.
Qed.

(** X6. The reading routes and the schema step never change what is
    stored: whatever the configuration and whichever driver calls fail,
    after GET /events, GET /data, the list operation or the schema step
    the table holds the same committed rows, the AUTO_INCREMENT counter
    has not moved and no transaction is left open. *)
Theorem reading_never_changes_the_rows :
  forall w R N,
    stored R N w ->
    stored R N (snd (list_events w)) /\
    stored R N (snd (get_data w)) /\
    stored R N (snd (fetch_data_from_db w)) /\
    stored R N (snd (create_db_table w)).
Proof.
  intros w R N H.
  assert (Hf : forall (f : list json -> response),
             preserves (stored R N) (data <- fetch_data_from_db ;; ret (f data))).
  { intros f. apply preserves_bind;
      [apply stored_fetch_data_from_db | intros; apply preserves_ret]. }
  assert (Hl : forall what (r : response),
             preserves (stored R N) (logging_exception what ;; ret r)).
  { intros what r. apply preserves_bind;
      [intros w0 H0; exact H0 | intros; apply preserves_ret]. }
  split; [ | split; [ | split]].
  - unfold list_events. apply preserves_try_except; [apply Hf | | exact H].
    apply Forall_cons; [intros e; apply preserves_ret | ].
    apply Forall_cons; [intros e; cbn [snd]; apply Hl | apply Forall_nil].
  - unfold get_data. apply preserves_try_except; [apply Hf | | exact H].
    apply Forall_cons; [intros e; cbn [snd]; apply Hl | apply Forall_nil].
  - apply stored_fetch_data_from_db. exact H.
  - apply stored_create_db_table. exact H.
Qed.

Lemma reading_never_changes_the_rows_witness :
  stored [may_event; june_event] 3
         (snd (get_data (world_with_rows [may_event; june_event] 3))).
Proof.
  apply (reading_never_changes_the_rows (world_with_rows [may_event; june_event] 3)
           [may_event; june_event] 3).
  repeat split.
Defined.

(** ** The connection provisioner, case by case *)

Lemma unset_iff env v :
  unset env v = true <-> assoc v env = None \/ assoc v env = Some "".
Proof.
  unfold unset. destruct (assoc v env) as [s|].
  - rewrite String.eqb_eq. split.
    + intros ->. right. reflexivity.
    + intros [H|H]; [discriminate H | injection H as ->; reflexivity].
  - split; [left; reflexivity | reflexivity].
Qed.

Lemma connect_error_is_not_configuration f msg :
  connect_error f <> mk_exn EnvironmentError msg.
Proof.
  unfold connect_error. destruct f as [cls m ap]. destruct cls; cbn; discriminate.
Qed.

(** X1. The configuration check is exact: a variable is reported as
    missing exactly when it is one of the four required ones and is
    absent or set to the empty string, and [get_db_connection] ends
    with the configuration error, without calling the driver, exactly
    when there is such a variable. *)
Theorem configuration_check_is_exact :
  forall w,
    (forall v, In v (missing_vars (environ w)) <->
               In v required_vars /\
               (assoc v (environ w) = None \/ assoc v (environ w) = Some "")) /\
    ((exists v, In v required_vars /\
                (assoc v (environ w) = None \/ assoc v (environ w) = Some "")) <->
     get_db_connection w
     = (Raised (mk_exn EnvironmentError (missing_message (environ w))),
        record_log ERROR (missing_message (environ w)) w)).
Proof.
  intros w.
  assert (Hin : forall v, In v (missing_vars (environ w)) <->
                  In v required_vars /\
                  (assoc v (environ w) = None \/ assoc v (environ w) = Some "")).
  { intros v. unfold missing_vars. rewrite filter_In, unset_iff. reflexivity. }
  split; [exact Hin | ]. split.
  - intros [v Hv]. apply get_db_connection_missing.
    intros E. apply Hin in Hv. rewrite E in Hv. exact Hv.
  - intros Hg.
    destruct (get_db_connection_cases w) as [[Hm _] | [[f [_ [_ E]]] | [_ [_ E]]]].
    + destruct (missing_vars (environ w)) as [|v vs] eqn:Hv; [congruence | ].
      exists v. apply Hin. left. reflexivity.
    + exfalso. rewrite E in Hg. injection Hg as Hg _.
      exact (connect_error_is_not_configuration _ _ Hg).
    + rewrite E in Hg. discriminate Hg.
Qed.

(** X2. With complete configuration [get_db_connection] makes exactly
    one connection attempt, with the four configured values, whatever
    its outcome: nothing is retried, one scheduled outcome is consumed,
    and neither the database nor the log is touched. *)
Theorem get_db_connection_single_attempt :
  forall w,
    missing_vars (environ w) = [] ->
    trace (snd (get_db_connection w)) = trace w ++ [connect_call (environ w)] /\
    schedule (snd (get_db_connection w)) = tl (schedule w) /\
    db (snd (get_db_connection w)) = db w /\
    app_log (snd (get_db_connection w)) = app_log w.
Proof.
  intros w Hm.
  destruct (get_db_connection_cases w) as [[Hne _] | [[f [_ [_ E]]] | [_ [_ E]]]];
    [congruence | | ]; rewrite E; repeat split; reflexivity.
Qed.

Lemma get_db_connection_single_attempt_witness :
  trace (snd (get_db_connection flaky_world))
  = [connect_call configured_env].
Proof.
  apply (proj1 (get_db_connection_single_attempt flaky_world eq_refl)).
Defined.

(** X3. With complete configuration the outcome of [get_db_connection]
    follows the driver's: a granted connection is returned, numbered
    next and open; an OperationalError becomes a ConnectionError whose
    text is "Failed to connect to the database: " followed by the
    driver's; any other driver error is raised as it is.  On failure no
    connection is left open. *)
Theorem get_db_connection_outcomes :
  forall w,
    missing_vars (environ w) = [] ->
    match schedule w with
    | Some f :: _ =>
        raised_by (get_db_connection w)
        = Some (if dbapi_eqb (fault_cls f) OperationalError
                then mk_exn ConnectionError
                       ("Failed to connect to the database: " ++ fault_msg f)
                else fault_exn f) /\
        open_conns (snd (get_db_connection w)) = open_conns w /\
        next_conn (snd (get_db_connection w)) = next_conn w
    | _ =>
        fst (get_db_connection w) = Returned (next_conn w) /\
        open_conns (snd (get_db_connection w)) = open_conns w ++ [next_conn w] /\
        next_conn (snd (get_db_connection w)) = S (next_conn w)
    end.
Proof.
  intros w Hm.
  destruct (schedule w) as [|[f|] rest] eqn:Hs.
  - rewrite (get_db_connection_granted w Hm (idle_schedule 0 w Hs)).
    repeat split; reflexivity.
  - rewrite (get_db_connection_refused w f Hm (scheduled_head w _ _ Hs)).
    repeat split; reflexivity.
  - rewrite (get_db_connection_granted w Hm (scheduled_head w _ _ Hs)).
    repeat split; reflexivity.
Qed.

Lemma get_db_connection_outcomes_witness :
  raised_by (get_db_connection
               (mk_world configured_env (mk_db false [] 1 [])
                         [Some (mk_fault OperationalError "(1045, 'Access denied')" false)]
                         0 [] [] []))
  = Some (mk_exn ConnectionError
            "Failed to connect to the database: (1045, 'Access denied')").
Proof.
  apply (proj1 (get_db_connection_outcomes
                  (mk_world configured_env (mk_db false [] 1 [])
                            [Some (mk_fault OperationalError "(1045, 'Access denied')"
                                     false)]
                            0 [] [] []) eq_refl)).
Defined.

(** ** The schema step, case by case *)

Lemma app_log_after_execute_fault c s f w :
  app_log (after_execute_fault c s f w) = app_log w.
Proof.
  unfold after_execute_fault. destruct (fault_applied f); [ | reflexivity].
  destruct (server_execute c s (db (advance (record_call (CallExecute c s) w))))
    as [f'|[d rs]]; reflexivity.
Qed.

Lemma app_log_after_commit_fault c f w :
  app_log (after_commit_fault c f w) = app_log w.
Proof. unfold after_commit_fault. destruct (fault_applied f); reflexivity. Qed.

Lemma app_log_after_create_fault f w :
  app_log (after_create_fault f w) = app_log w ++ [(ERROR, schema_failure_log)].
Proof.
  unfold after_create_fault. cbv zeta.
  change (app_log (after_execute_fault (S (next_conn w)) CreateTableIfNotExists f
                     (after_rebinding w)) ++ [(ERROR, schema_failure_log)]
          = app_log w ++ [(ERROR, schema_failure_log)]).
  rewrite app_log_after_execute_fault. reflexivity.
Qed.

Lemma app_log_after_schema_commit_fault f w :
  app_log (after_schema_commit_fault f w) = app_log w ++ [(ERROR, schema_failure_log)].
Proof.
  unfold after_schema_commit_fault. cbv zeta.
  match goal with |- app_log (record_log _ _ (after_close _ ?x)) = _ =>
    change (app_log x ++ [(ERROR, schema_failure_log)]
            = app_log w ++ [(ERROR, schema_failure_log)]) end.
  rewrite app_log_after_commit_fault. reflexivity.
Qed.

(** X4. With complete configuration the outcome of the schema step is
    decided by the first of its four round trips that fails, and the
    text of its error is tied to that failure.  A failure of the first
    connection attempt (line 87, outside the try) is raised as
    [get_db_connection] raises it, unwrapped and unlogged.  A failure of
    the second attempt (line 89), of CREATE TABLE or of the commit is
    logged and raised as a RuntimeError whose text is "Table creation
    failed: " followed by the text of that very exception: for the
    connection, what [get_db_connection] made of the driver's error, for
    the statement and the commit, the driver's own text.  When none of
    the four fails the step returns, having logged its success. *)
Theorem create_db_table_wraps_failures :
  forall w,
    missing_vars (environ w) = [] ->
    (forall f,
       scheduled 0 w = Some f ->
       raised_by (create_db_table w) = Some (connect_error f) /\
       raised_by (create_db_table w) = raised_by (get_db_connection w) /\
       app_log (snd (create_db_table w)) = app_log w) /\
    (forall f,
       scheduled 0 w = None -> scheduled 1 w = Some f ->
       raised_by (create_db_table w)
       = Some (mk_exn RuntimeError
                 ("Table creation failed: " ++ exn_msg (connect_error f))) /\
       app_log (snd (create_db_table w))
       = app_log w ++ [(ERROR, "Failed to create or verify the events table")]) /\
    (forall f,
       scheduled 0 w = None -> scheduled 1 w = None ->
       scheduled 2 w = Some f \/ (scheduled 2 w = None /\ scheduled 3 w = Some f) ->
       raised_by (create_db_table w)
       = Some (mk_exn RuntimeError ("Table creation failed: " ++ fault_msg f)) /\
       app_log (snd (create_db_table w))
       = app_log w ++ [(ERROR, "Failed to create or verify the events table")]) /\
    (scheduled 0 w = None -> scheduled 1 w = None ->
     scheduled 2 w = None -> scheduled 3 w = None ->
     fst (create_db_table w) = Returned tt /\
     app_log (snd (create_db_table w))
     = app_log w ++ [(INFO, "Events table created or already exists")]).
Proof.
  intros w Hm. split; [ | split; [ | split]].
  - intros f H0.
    rewrite (create_db_table_first_refused w f Hm H0),
      (get_db_connection_refused w f Hm H0).
    repeat split; reflexivity.
  - intros f H0 H1.
    rewrite (create_db_table_second_refused w f Hm H0 H1).
    split; reflexivity.
  - intros f H0 H1 [H2 | [H2 H3]].
    + rewrite (create_db_table_create_fault w f Hm H0 H1 H2).
      split; [reflexivity | apply app_log_after_create_fault].
    + rewrite (create_db_table_commit_fault w f Hm H0 H1 H2 H3).
      split; [reflexivity | apply app_log_after_schema_commit_fault].
  - intros H0 H1 H2 H3.
    rewrite (create_db_table_ok w Hm H0 H1 H2 H3).
    split; reflexivity.
Qed.

Lemma create_db_table_wraps_failures_witness :
  raised_by (create_db_table flaky_world)
  = Some (mk_exn RuntimeError
            "Table creation failed: Failed to connect to the database: (2003, 'Cannot connect to MySQL server')") /\
  app_log (snd (create_db_table flaky_world))
  = [(ERROR, "Failed to create or verify the events table")].
Proof.
  exact (proj1 (proj2 (create_db_table_wraps_failures flaky_world eq_refl))
           (mk_fault OperationalError "(2003, 'Cannot connect to MySQL server')" false)
           eq_refl eq_refl).
Defined.

(** X5. The schema step returns only after its work is done.  Whenever
    it returns, the configuration was complete, none of its four round
    trips had failed, and the driver was called, in this order, to
    connect twice, to execute CREATE TABLE IF NOT EXISTS on the second
    connection (that of line 89), to commit on it and to close it; the
    events table then exists.  The first connection (line 87) received
    no call at all. *)
Theorem create_db_table_ensures_table :
  forall w w',
    create_db_table w = (Returned tt, w') ->
    missing_vars (environ w) = [] /\
    (scheduled 0 w = None /\ scheduled 1 w = None /\
     scheduled 2 w = None /\ scheduled 3 w = None) /\
    trace w'
    = trace w ++ [connect_call (environ w); connect_call (environ w);
                  CallExecute (S (next_conn w)) CreateTableIfNotExists;
                  CallCommit (S (next_conn w)); CallClose (S (next_conn w))] /\
    table_exists (db w') = true /\
    is_open (S (next_conn w)) w' = false.
Proof.
  intros w w' H.
  destruct (missing_vars (environ w)) as [|v vs] eqn:Hm.
  2:{ rewrite create_db_table_missing in H by (rewrite Hm; discriminate).
      discriminate H. }
  destruct (create_db_table_cases w Hm)
    as [[f [_ E]] | [[f [_ [_ E]]] | [[f [_ [_ [_ E]]]] | [[f [_ [_ [_ [_ E]]]]]
        | [H0 [H1 [H2 [H3 E]]]]]]]];
    rewrite E in H; try discriminate H.
  injection H as <-.
  split; [reflexivity | ].
  split; [repeat split; assumption | ].
  split; [apply trace_after_create_table | ].
  split; [reflexivity | ].
  unfold after_create_table, after_close. cbv zeta. apply dropped_is_not_open.
Qed.

Lemma create_db_table_ensures_table_witness :
  table_exists (db (snd (create_db_table fresh_world))) = true /\
  trace (snd (create_db_table fresh_world))
  = [connect_call configured_env; connect_call configured_env;
     CallExecute 1 CreateTableIfNotExists; CallCommit 1; CallClose 1].
Proof.
  destruct (create_db_table_ensures_table fresh_world (snd (create_db_table fresh_world)))
    as [_ [_ [Ht [He _]]]].
  - vm_compute. reflexivity.
  - split; [exact He | exact Ht].
Defined.

(** ** What the calls do to the connections *)

Lemma framed_opens_only {A : Type} (m : M A) :
  (forall w, framed w (snd (m w))) -> forall allowed, preserves (opens_only allowed) m.
Proof.
  intros H allowed w Hw c Hc. destruct (H w) as [Ho' _].
  apply Hw. rewrite <- Ho'. exact Hc.
Qed.

Lemma py_get_framed obj k w : framed w (snd (py_get obj k w)).
Proof. destruct obj; repeat split; left; reflexivity. Qed.

Lemma opens_only_drop allowed c w :
  opens_only allowed w -> opens_only allowed (drop_connection c w).
Proof.
  intros H x Hx. apply H. unfold drop_connection in Hx.
  cbn [open_conns set_db set_conns] in Hx. apply filter_In in Hx. apply Hx.
Qed.

Lemma opens_only_finalize allowed c :
  preserves (opens_only allowed) (finalize_connection c).
Proof.
  intros w H. unfold finalize_connection.
  destruct (is_open c w); cbn [snd]; [apply opens_only_drop | ]; exact H.
Qed.

(** Once [close] has been called on a connection it is not open,
    whether the call succeeded or not. *)
Lemma closed_is_gone c w x :
  In x (open_conns (snd (connection_close c w))) -> In x (open_conns w) /\ x <> c.
Proof.
  unfold connection_close. destruct (is_open c w) eqn:Ho; cbn [snd].
  - unfold drop_connection. cbn [open_conns set_db set_conns record_call].
    intros H. apply filter_In in H. destruct H as [Hin Hne].
    split; [exact Hin | ]. intros ->. rewrite Nat.eqb_refl in Hne. discriminate Hne.
  - intros H. split; [exact H | ]. intros ->.
    unfold is_open in Ho.
    assert (Ht : existsb (Nat.eqb c) (open_conns w) = true).
    { apply existsb_exists. exists c. split; [exact H | apply Nat.eqb_refl]. }
    rewrite Ht in Ho. discriminate Ho.
Qed.

Lemma get_db_connection_conns w :
  (exists e, fst (get_db_connection w) = Raised e /\
             connections (open_conns w) (next_conn w) (snd (get_db_connection w))) \/
  (fst (get_db_connection w) = Returned (next_conn w) /\
   connections (open_conns w ++ [next_conn w]) (S (next_conn w))
               (snd (get_db_connection w))).
Proof.
  destruct (get_db_connection_cases w) as [[_ E] | [[f [_ [_ E]]] | [_ [_ E]]]];
    rewrite E.
  - left. eexists. split; [reflexivity | split; reflexivity].
  - left. eexists. split; [reflexivity | split; reflexivity].
  - right. split; [reflexivity | split; reflexivity].
Qed.

(** A connection acquired for a block and closed after it leaves no
    connection behind, if the block opens none. *)
Lemma acquired_connection_is_released {A : Type} (body : nat -> M A) w c :
  (forall c0 allowed, preserves (opens_only allowed) (body c0)) ->
  In c (open_conns (snd (with_connection get_db_connection body w))) ->
  In c (open_conns w).
Proof.
  intros Hb. unfold with_connection, bind.
  destruct (get_db_connection_conns w) as [[e [E [Ho Hn]]] | [E [Ho Hn]]];
    destruct (get_db_connection w) as [[c1|e1] w1]; cbn [fst snd] in *;
    try discriminate E.
  - rewrite Ho. auto.
  - injection E as ->. unfold try_finally.
    pose proof (Hb (next_conn w) (open_conns w1) w1 (fun x Hx => Hx)) as Hbody.
    destruct (body (next_conn w) w1) as [r w2]. cbn [snd] in Hbody.
    intros Hin.
    assert (Hc : In c (open_conns (snd (connection_close (next_conn w) w2)))).
    { destruct (connection_close (next_conn w) w2) as [[u|e] w3]; exact Hin. }
    apply closed_is_gone in Hc. destruct Hc as [Hc Hne].
    apply Hbody in Hc. rewrite Ho in Hc. apply in_app_iff in Hc.
    destruct Hc as [Hc | [Hc | []]]; [exact Hc | congruence].
Qed.

Lemma handled_keeps_connections {A : Type} (body : M A) clauses w :
  Forall (fun c => forall e O N, preserves (connections O N) (snd c e)) clauses ->
  open_conns (snd (try_except body clauses w)) = open_conns (snd (body w)).
Proof.
  intros Hc. unfold try_except. destruct (body w) as [[a|e] w1]; [reflexivity | ].
  cbn [snd].
  assert (H : preserves (connections (open_conns w1) (next_conn w1)) (select_clause e clauses)).
  { apply preserves_select_clause.
    eapply Forall_impl; [ | exact Hc]. intros cl H e'. apply H. }
  destruct (H w1 (conj eq_refl eq_refl)) as [H1 _]. exact H1.
Qed.

Lemma logged_response_keeps_connections what (r : response) O N :
  preserves (connections O N) (logging_exception what ;; ret r).
Proof.
  apply preserves_bind; [intros w H; exact H | intros; apply preserves_ret].
Qed.

Lemma create_db_table_conns w c :
  In c (open_conns (snd (create_db_table w))) ->
  In c (open_conns w) \/ c = next_conn w.
Proof.
  unfold create_db_table. unfold bind at 1.
  destruct (get_db_connection_conns w) as [[e [E [Ho Hn]]] | [E [Ho Hn]]];
    destruct (get_db_connection w) as [[c1|e1] w1]; cbn [fst snd] in *;
    try discriminate E.
  - rewrite Ho. auto.
  - rewrite handled_keeps_connections.
    + intros Hin. apply acquired_connection_is_released in Hin.
      * rewrite Ho in Hin. apply in_app_iff in Hin.
        destruct Hin as [Hin | [<- | []]]; auto.
      * intros c0 allowed.
        apply preserves_bind; [apply opens_only_finalize | intros _].
        apply preserves_bind.
        -- apply preserves_with_cursor. intros cur.
           apply preserves_bind;
             [apply framed_opens_only; apply execute_framed | intros; apply preserves_ret].
        -- intros _. apply preserves_bind;
             [apply framed_opens_only; apply commit_framed | intros _].
           intros w0 H0. exact H0.
    + apply Forall_cons; [ | apply Forall_nil]. intros e O N. cbn [snd].
      apply preserves_bind; [intros w0 H0; exact H0 | intros; apply preserves_raise].
Qed.

Lemma insert_data_into_db_conns p w c :
  In c (open_conns (snd (insert_data_into_db p w))) ->
  In c (open_conns w) \/ c = next_conn w.
Proof.
  unfold insert_data_into_db. unfold bind at 1.
  pose proof (create_db_table_conns w c) as Hc.
  destruct (create_db_table w) as [[u|e] w1]; cbn [snd] in *; [ | exact Hc].
  intros Hin. apply Hc.
  refine (acquired_connection_is_released _ w1 c _ Hin).
  intros c0 allowed.
  apply preserves_bind; [ | intros; apply framed_opens_only; apply commit_framed].
  apply preserves_with_cursor. intros cur.
  do 5 (apply preserves_bind;
        [apply framed_opens_only; intros; apply py_get_framed | intros ?]).
  apply preserves_bind;
    [apply framed_opens_only; apply execute_framed | intros; apply preserves_ret].
Qed.

Lemma fetch_data_from_db_conns w c :
  In c (open_conns (snd (fetch_data_from_db w))) ->
  In c (open_conns w) \/ c = next_conn w.
Proof.
  unfold fetch_data_from_db. unfold bind at 1.
  pose proof (create_db_table_conns w c) as Hc.
  destruct (create_db_table w) as [[u|e] w1]; cbn [snd] in *; [ | exact Hc].
  intros Hin. apply Hc.
  refine (acquired_connection_is_released _ w1 c _ Hin).
  intros c0 allowed.
  apply preserves_bind; [ | intros; apply preserves_ret].
  apply preserves_with_cursor. intros cur.
  apply preserves_bind; [intros w0 H0; exact H0 | intros _].
  apply preserves_bind;
    [apply framed_opens_only; apply execute_framed | intros; apply preserves_ret].
Qed.

Lemma returning_keeps_world {A B : Type} (m : M A) (f : A -> B) w :
  snd ((x <- m ;; ret (f x)) w) = snd (m w).
Proof. unfold bind, ret. destruct (m w) as [[a|e] w1]; reflexivity. Qed.

Lemma payload_cases b :
  (exists e, parser_error b = Some e /\ payload_of b = JNull) \/
  (exists items, payload_of b = JObj items) \/
  (is_dict (payload_of b) = false /\
   is_dict (get_json_force_silent b) = false /\
   truthy (get_json_force_silent b) = true /\
   payload_of b = get_json_force_silent b).
Proof.
  unfold payload_of. destruct (parser_error b) as [e|] eqn:He.
  - left. exists e. split; reflexivity.
  - right. unfold py_or. destruct (truthy (get_json_force_silent b)) eqn:Ht.
    + destruct (get_json_force_silent b) as [ | | | | | | items] eqn:Hp;
        try (right; repeat split; reflexivity).
      left. exists items. reflexivity.
    + left. exists []. reflexivity.
Qed.

(** X8. Whatever the configuration, the payload and the failures of the
    driver, a repository call or a route leaves at most one connection
    open that was not open before, and it is the one the schema step
    opened at line 87; the connection of line 89 and the one the
    list and insert operations open for themselves are always closed. *)
Theorem at_most_one_connection_left_open :
  forall w c,
    (In c (open_conns (snd (create_db_table w))) ->
       In c (open_conns w) \/ c = next_conn w) /\
    (In c (open_conns (snd (fetch_data_from_db w))) ->
       In c (open_conns w) \/ c = next_conn w) /\
    (forall p, In c (open_conns (snd (insert_data_into_db p w))) ->
       In c (open_conns w) \/ c = next_conn w) /\
    (In c (open_conns (snd (list_events w))) ->
       In c (open_conns w) \/ c = next_conn w) /\
    (In c (open_conns (snd (get_data w))) ->
       In c (open_conns w) \/ c = next_conn w) /\
    (forall b, In c (open_conns (snd (create_event b w))) ->
       In c (open_conns w) \/ c = next_conn w).
Proof.
  intros w c.
  split; [apply create_db_table_conns | ].
  split; [apply fetch_data_from_db_conns | ].
  split; [intros p; apply insert_data_into_db_conns | ].
  split; [ | split].
  - unfold list_events. rewrite handled_keeps_connections.
    + rewrite returning_keeps_world. apply fetch_data_from_db_conns.
    + apply Forall_cons; [intros e O N; apply preserves_ret | ].
      apply Forall_cons; [ | apply Forall_nil].
      intros e O N. apply logged_response_keeps_connections.
  - unfold get_data. rewrite handled_keeps_connections.
    + rewrite returning_keeps_world. apply fetch_data_from_db_conns.
    + apply Forall_cons; [ | apply Forall_nil].
      intros e O N. apply logged_response_keeps_connections.
  - intros b.
    destruct (payload_cases b) as [[e [He _]] | [[items Hp] | [_ [Hd [Ht _]]]]].
    + rewrite (create_event_parser_raises w b e He). cbn [snd open_conns record_log]. auto.
    + destruct (lacks_required (JObj items)) eqn:Hl.
      * rewrite (create_event_rejects_object w b items Hp Hl). cbn [snd]. auto.
      * destruct (valid_payload_shape _ Hl) as [items' [E [Htt [Htd _]]]].
        injection E as <-.
        rewrite (create_event_accepts w b items Hp Htt Htd).
        pose proof (insert_data_into_db_conns (JObj items) w c) as Hi.
        destruct (insert_data_into_db (JObj items) w) as [[u|e] w1]; exact Hi.
    + rewrite (create_event_rejects_non_dict w b Hd Ht). cbn [snd open_conns record_log].
      auto.
Qed.

(** ** POST /events: every body is answered *)

(** X9. POST /events always answers, with 201, 400 or 500, and never
    lets an exception through, whatever the body, the configuration and
    the failures of the driver.  It answers 400 exactly when the payload
    (the parsed body, or the empty object when that is falsy) is an
    object without a non-empty title or date, and then changes nothing;
    a 201 is only given to an object with both; every 500 is logged
    at level ERROR.  (When the parser raises there is no payload, which
    [payload_of] renders as [None], not an object: the answer is 500.) *)
Theorem create_event_always_answers :
  forall w b,
    exists r w',
      create_event b w = (Returned r, w') /\
      ((status r = 400 /\ is_dict (payload_of b) = true /\
        lacks_required (payload_of b) = true /\ w' = w) \/
       (status r = 201 /\ is_dict (payload_of b) = true /\
        lacks_required (payload_of b) = false) \/
       (status r = 500 /\
        (is_dict (payload_of b) = false \/ lacks_required (payload_of b) = false) /\
        exists w1, w' = record_log ERROR "Error occurred during event creation" w1)).
Proof.
  intros w b.
  destruct (payload_cases b) as [[e [He Hn]] | [[items Hp] | [Hd [Hd' [Ht Hp]]]]].
  - rewrite (create_event_parser_raises w b e He).
    eexists. eexists. split; [reflexivity | ].
    right; right. split; [reflexivity | ]. rewrite Hn.
    split; [left; reflexivity | exists w; reflexivity].
  - destruct (lacks_required (JObj items)) eqn:Hl.
    + exists missing_fields_response, w. split.
      * apply create_event_rejects_object with (items := items); [exact Hp | exact Hl].
      * left. rewrite Hp. repeat split; assumption.
    + destruct (valid_payload_shape _ Hl) as [items' [E [Htt [Htd Hty]]]].
      injection E as <-.
      rewrite (create_event_accepts w b items Hp Htt Htd).
      destruct (insert_data_into_db (JObj items) w) as [[u|e] w1].
      * eexists. eexists. split; [reflexivity | ].
        right; left. rewrite Hp. repeat split; assumption.
      * eexists. eexists. split; [reflexivity | ].
        right; right. rewrite Hp. split; [reflexivity | ].
        split; [right; exact Hl | exists w1; reflexivity].
  - rewrite (create_event_rejects_non_dict w b Hd' Ht).
    eexists. eexists. split; [reflexivity | ].
    right; right. split; [reflexivity | ]. split; [left; exact Hd | exists w; reflexivity].
Qed.

(** ** POST /events: what gets stored *)

Lemma nth_some_in {A : Type} n (l : list (option A)) x :
  nth n l None = Some x -> In (Some x) l.
Proof.
  revert n. induction l as [|a l IH]; intros [|n] H; cbn in H; try discriminate H.
  - left. exact H.
  - right. eapply IH. exact H.
Qed.

Lemma no_lost_reply_scheduled w n f :
  no_lost_reply w -> scheduled n w = Some f -> fault_applied f = false.
Proof.
  unfold no_lost_reply. rewrite Forall_forall. intros H Hs.
  apply (H (Some f)). eapply nth_some_in. exact Hs.
Qed.

Lemma server_insert c t de im da lo d d' rs :
  server_execute c (InsertEvent t de im da lo) d = inr (d', rs) ->
  d' = row_inserted c (mk_row (next_id d) t de im da lo) d.
Proof.
  cbn [server_execute]. destruct (negb (table_exists d)); [discriminate | ].
  destruct (is_null t || is_null da); [discriminate | ].
  intros H. injection H as <- _. reflexivity.
Qed.

Lemma inserted_then_rolled_back c r d :
  pending d = [] ->
  rows (rollback_pending c (row_inserted c r d)) = rows d /\
  pending (rollback_pending c (row_inserted c r d)) = [].
Proof.
  intros Hp. unfold rollback_pending, row_inserted. cbn [rows pending].
  rewrite Hp. cbn [app filter fst]. rewrite Nat.eqb_refl. split; reflexivity.
Qed.

Lemma inserted_then_committed c r d :
  pending d = [] ->
  rows (commit_pending c (row_inserted c r d)) = rows d ++ [r] /\
  pending (commit_pending c (row_inserted c r d)) = [].
Proof.
  intros Hp. unfold commit_pending, row_inserted. cbn [rows pending].
  rewrite Hp. cbn [app filter fst]. rewrite Nat.eqb_refl. split; reflexivity.
Qed.

(** The block of [insert_data_into_db] under its [finally], run with no
    transaction open: when it returns the row is committed; when it
    raises the row is not stored, unless it was the commit that failed
    and the server had carried it out. *)
Lemma insert_block_outcome R N c t de im da lo w :
  stored R N w -> is_open c w = true ->
  let r := try_finally
             (cursor_execute (connection_cursor c Cursor) (InsertEvent t de im da lo) ;;
              connection_commit c)
             (connection_close c) w in
  pending (db (snd r)) = [] /\
  match fst r with
  | Returned _ => rows (db (snd r)) = R ++ [mk_row N t de im da lo]
  | Raised _ =>
      rows (db (snd r)) = R \/
      (rows (db (snd r)) = R ++ [mk_row N t de im da lo] /\
       exists f, scheduled 1 w = Some f /\ fault_applied f = true)
  end.
Proof.
  intros Hs Ho. pose proof Hs as [Hr [Hn Hp]]. cbv zeta.
  destruct (execute_cases (connection_cursor c Cursor) (InsertEvent t de im da lo) w)
    as [[e E] | [[f [_ [H0 E]]] | [_ [H0 E]]]];
    cbn [cur_conn connection_cursor] in E.
  - (* nothing was sent *)
    erewrite try_finally_returned;
      [ | apply bind_raised; exact E | apply connection_close_ok; exact Ho].
    cbn [fst snd]. destruct (stored_drop R N c _ Hs) as [Hr' [_ Hp']].
    split; [exact Hp' | left; exact Hr'].
  - (* the INSERT failed *)
    erewrite try_finally_returned;
      [ | apply bind_raised; exact E
        | apply connection_close_ok; rewrite is_open_after_execute_fault; exact Ho].
    cbn [fst snd]. rewrite db_after_close.
    unfold after_execute_fault. destruct (fault_applied f).
    + change (db (advance (record_call (CallExecute c (InsertEvent t de im da lo)) w)))
        with (db w).
      destruct (server_execute c (InsertEvent t de im da lo) (db w)) as [f'|[d rs]] eqn:Ex.
      * change (db (advance (record_call (CallExecute c (InsertEvent t de im da lo)) w)))
          with (db w).
        unfold rollback_pending. cbn [rows pending]. rewrite Hp.
        split; [reflexivity | left; exact Hr].
      * apply server_insert in Ex. subst d. cbn [db set_db].
        destruct (inserted_then_rolled_back c (mk_row (next_id (db w)) t de im da lo)
                    (db w) Hp) as [Hr' Hp'].
        split; [exact Hp' | left; rewrite Hr'; exact Hr].
    + change (db (advance (record_call (CallExecute c (InsertEvent t de im da lo)) w)))
        with (db w).
      unfold rollback_pending. cbn [rows pending]. rewrite Hp.
      split; [reflexivity | left; exact Hr].
  - (* the INSERT reached the server *)
    unfold server_answer in E. cbn [cur_conn cur_class connection_cursor] in E.
    change (db (advance (record_call (CallExecute c (InsertEvent t de im da lo)) w)))
      with (db w) in E.
    destruct (server_execute c (InsertEvent t de im da lo) (db w)) as [f'|[d rs]] eqn:Ex.
    + erewrite try_finally_returned;
        [ | apply bind_raised; exact E | apply connection_close_ok; exact Ho].
      cbn [fst snd]. rewrite db_after_close.
      change (db (advance (record_call (CallExecute c (InsertEvent t de im da lo)) w)))
        with (db w).
      unfold rollback_pending. cbn [rows pending]. rewrite Hp.
      split; [reflexivity | left; exact Hr].
    + apply server_insert in Ex. subst d.
      fold (after_execute c (InsertEvent t de im da lo)
              (row_inserted c (mk_row (next_id (db w)) t de im da lo) (db w)) w) in E.
      set (w3 := after_execute c (InsertEvent t de im da lo)
                   (row_inserted c (mk_row (next_id (db w)) t de im da lo) (db w)) w) in *.
      assert (Ho3 : is_open c w3 = true) by exact Ho.
      assert (Hd3 : db w3 = row_inserted c (mk_row (next_id (db w)) t de im da lo) (db w))
        by reflexivity.
      assert (Hs3 : scheduled 0 w3 = scheduled 1 w)
        by (apply scheduled_after_execute).
      destruct (commit_cases c w3) as [[Hc _] | [[f [_ [H1 Ec]]] | [_ [H1 Ec]]]].
      * rewrite Ho3 in Hc. discriminate Hc.
      * erewrite try_finally_returned;
          [ | rewrite (bind_returned _ _ _ _ _ E); exact Ec
            | apply connection_close_ok; rewrite is_open_after_commit_fault; exact Ho3].
        cbn [fst snd]. rewrite db_after_close.
        unfold after_commit_fault. destruct (fault_applied f) eqn:Ha.
        -- rewrite db_after_commit, Hd3.
           destruct (inserted_then_committed c (mk_row (next_id (db w)) t de im da lo)
                       (db w) Hp) as [Hr' Hp'].
           unfold rollback_pending. cbn [rows pending]. rewrite Hp', Hr', Hr, Hn.
           split; [reflexivity | right]. split; [reflexivity | ].
           exists f. split; [rewrite <- Hs3; exact H1 | exact Ha].
        -- change (db (advance (record_call (CallCommit c) w3))) with (db w3).
           rewrite Hd3.
           destruct (inserted_then_rolled_back c (mk_row (next_id (db w)) t de im da lo)
                       (db w) Hp) as [Hr' Hp'].
           split; [exact Hp' | left; rewrite Hr'; exact Hr].
      * erewrite try_finally_returned;
          [ | rewrite (bind_returned _ _ _ _ _ E); exact Ec
            | apply connection_close_ok; rewrite is_open_after_commit; exact Ho3].
        cbn [fst snd]. rewrite db_after_close, db_after_commit, Hd3.
        destruct (inserted_then_committed c (mk_row (next_id (db w)) t de im da lo)
                    (db w) Hp) as [Hr' Hp'].
        unfold rollback_pending. cbn [rows pending]. rewrite Hp', Hr', Hr, Hn.
        split; reflexivity.
Qed.

(** The cursor block of [insert_data_into_db] on a dict does what its
    one statement does. *)
Lemma insert_cursor_block c items w :
  (with_cursor c Cursor (fun cursor =>
     title <- py_get (JObj items) "title" ;;
     description <- py_get (JObj items) "description" ;;
     image_url <- py_get (JObj items) "image_url" ;;
     date_ <- py_get (JObj items) "date" ;;
     location <- py_get (JObj items) "location" ;;
     cursor_execute cursor (InsertEvent title description image_url date_ location) ;;
     ret tt) ;;
   connection_commit c) w
  = (cursor_execute (connection_cursor c Cursor)
       (InsertEvent (dict_get items "title") (dict_get items "description")
          (dict_get items "image_url") (dict_get items "date")
          (dict_get items "location")) ;;
     connection_commit c) w.
Proof.
  unfold bind at 1. rewrite with_cursor_body. cbn [py_get].
  unfold bind, ret.
  destruct (cursor_execute (connection_cursor c Cursor)
              (InsertEvent (dict_get items "title") (dict_get items "description")
                 (dict_get items "image_url") (dict_get items "date")
                 (dict_get items "location")) w) as [[cur|e] w1]; reflexivity.
Qed.

Lemma create_db_table_returns w w' :
  create_db_table w = (Returned tt, w') ->
  missing_vars (environ w) = [] /\ w' = after_create_table w.
Proof.
  intros H.
  destruct (missing_vars (environ w)) as [|v vs] eqn:Hm.
  2:{ rewrite create_db_table_missing in H by (rewrite Hm; discriminate).
      discriminate H. }
  destruct (create_db_table_cases w Hm)
    as [[f [_ E]] | [[f [_ [_ E]]] | [[f [_ [_ [_ E]]]] | [[f [_ [_ [_ [_ E]]]]]
        | [_ [_ [_ [_ E]]]]]]]];
    rewrite E in H; try discriminate H.
  injection H as <-. split; reflexivity.
Qed.

Lemma insert_data_into_db_outcome R N items w :
  stored R N w ->
  pending (db (snd (insert_data_into_db (JObj items) w))) = [] /\
  match fst (insert_data_into_db (JObj items) w) with
  | Returned _ =>
      rows (db (snd (insert_data_into_db (JObj items) w))) = R ++ [row_of N items]
  | Raised _ =>
      rows (db (snd (insert_data_into_db (JObj items) w))) = R \/
      (rows (db (snd (insert_data_into_db (JObj items) w))) = R ++ [row_of N items] /\
       exists f, scheduled 6 w = Some f /\ fault_applied f = true)
  end.
Proof.
  intros Hs. unfold insert_data_into_db.
  pose proof (stored_create_db_table R N w Hs) as H1.
  destruct (create_db_table w) as [[u|e] w1] eqn:E1; cbn [snd] in H1.
  2:{ raised E1. destruct H1 as [Hr [_ Hp]]. split; [exact Hp | left; exact Hr]. }
  returned E1. destruct u.
  destruct (create_db_table_returns w w1 E1) as [Hm ->].
  pose proof (stored_get_db_connection R N _ H1) as H2.
  destruct (get_db_connection_cases (after_create_table w))
    as [[_ E2] | [[f [_ [_ E2]]] | [_ [_ E2]]]]; rewrite E2 in H2; cbn [snd] in H2.
  - raised E2. destruct H2 as [Hr [_ Hp]]. split; [exact Hp | left; exact Hr].
  - raised E2. destruct H2 as [Hr [_ Hp]]. split; [exact Hp | left; exact Hr].
  - returned E2.
    pose proof (insert_block_outcome R N (next_conn (after_create_table w))
                  (dict_get items "title") (dict_get items "description")
                  (dict_get items "image_url") (dict_get items "date")
                  (dict_get items "location") (after_connect (after_create_table w))
                  H2 (newest_is_open _)) as H.
    cbv zeta in H.
    rewrite scheduled_after_connect, scheduled_after_create_table in H.
    unfold try_finally in *. rewrite insert_cursor_block. exact H.
Qed.

(** X7. A POST /events stores one row or none.  From a table holding
    rows R with no open transaction, whatever the body and the failures
    of the driver: the request is answered, no transaction is left
    open, and the rows afterwards are R or R followed by one new row.
    A 201 is answered only when the row is stored.  A status other than
    201 means that the rows are those of before, with one exception:
    when the commit of the INSERT, the seventh round trip of the
    request, fails after the server has carried it out, the answer is
    500 and the row is stored.  If no scheduled failure is of that kind
    the status tells which. *)
Theorem create_event_stores_one_row_or_none :
  forall w b R N,
    stored R N w ->
    exists r w',
      create_event b w = (Returned r, w') /\
      pending (db w') = [] /\
      ((status r = 201 /\ exists row, rows (db w') = R ++ [row]) \/
       (status r <> 201 /\ rows (db w') = R) \/
       (status r = 500 /\ (exists row, rows (db w') = R ++ [row]) /\
        exists f, scheduled 6 w = Some f /\ fault_applied f = true)) /\
      (no_lost_reply w -> status r <> 201 -> rows (db w') = R).
Proof.
  intros w b R N Hs. pose proof Hs as [Hr [Hn Hpe]].
  destruct (payload_cases b) as [[e [He _]] | [[items Hp] | [Hd [Hd' [Ht Hp]]]]].
  - rewrite (create_event_parser_raises w b e He).
    eexists. eexists. split; [reflexivity | ].
    split; [exact Hpe | ].
    split; [right; left; split; [discriminate | exact Hr] | intros _ _; exact Hr].
  - destruct (lacks_required (JObj items)) eqn:Hl.
    + exists missing_fields_response, w. split.
      * apply create_event_rejects_object with (items := items); [exact Hp | exact Hl].
      * split; [exact Hpe | ].
        split; [right; left; split; [discriminate | exact Hr] | intros _ _; exact Hr].
    + destruct (valid_payload_shape _ Hl) as [items' [E [Htt [Htd Hty]]]].
      injection E as <-.
      rewrite (create_event_accepts w b items Hp Htt Htd).
      destruct (insert_data_into_db_outcome R N items w Hs) as [Hpend Hout].
      destruct (insert_data_into_db (JObj items) w) as [[u|e] w1]; cbn [fst snd] in *.
      * eexists. eexists. split; [reflexivity | ].
        split; [exact Hpend | ].
        split; [left; split; [reflexivity | exists (row_of N items); exact Hout] | ].
        intros _ Hne. exfalso. apply Hne. reflexivity.
      * eexists. eexists. split; [reflexivity | ].
        split; [exact Hpend | ].
        destruct Hout as [Hout | [Hout [f [Hf Ha]]]].
        -- split; [right; left; split; [discriminate | exact Hout] | intros _ _; exact Hout].
        -- split.
           ++ right; right. split; [reflexivity | ].
              split; [exists (row_of N items); exact Hout | exists f; split; assumption].
           ++ intros Hno _. rewrite (no_lost_reply_scheduled w 6 f Hno Hf) in Ha.
              discriminate Ha.
  - rewrite (create_event_rejects_non_dict w b Hd' Ht).
    eexists. eexists. split; [reflexivity | ].
    split; [exact Hpe | ].
    split; [right; left; split; [discriminate | exact Hr] | intros _ _; exact Hr].
Qed.

Lemma create_event_stores_one_row_or_none_witness :
  exists r w',
    create_event (JsonBody launch_payload) lost_reply_world = (Returned r, w') /\
    pending (db w') = [] /\
    ((status r = 201 /\ exists row, rows (db w') = [] ++ [row]) \/
     (status r <> 201 /\ rows (db w') = []) \/
     (status r = 500 /\ (exists row, rows (db w') = [] ++ [row]) /\
      exists f, scheduled 6 lost_reply_world = Some f /\ fault_applied f = true)) /\
    (no_lost_reply lost_reply_world -> status r <> 201 -> rows (db w') = []).
Proof.
  apply (create_event_stores_one_row_or_none lost_reply_world (JsonBody launch_payload)
           [] 1%Z).
  repeat split.
Defined.

(** The exception occurs: the reply to the commit is lost, the client
    is told 500 and the event is in the table. *)
Example lost_commit_reply_stores_the_row :
  fst (create_event (JsonBody launch_payload) lost_reply_world)
  = Returned (error_response "During event creation" (fault_exn lost_commit)) /\
  rows (db (snd (create_event (JsonBody launch_payload) lost_reply_world)))
  = [mk_row 1 (JStr "Launch") JNull JNull (JStr "2024-07-01") JNull].
Proof. vm_compute. split; reflexivity. Qed.

(** A title that cannot be encoded stops the INSERT in the driver: the
    schema step has run, the statement is not sent, the answer is 500. *)
Example lone_surrogate_is_not_sent :
  status_of (create_event (JsonBody surrogate_payload) fresh_world) = Some 500 /\
  existsb is_insert_call
    (trace (snd (create_event (JsonBody surrogate_payload) fresh_world))) = false /\
  rows (db (snd (create_event (JsonBody surrogate_payload) fresh_world))) = [].
Proof. vm_compute. repeat split; reflexivity. Qed.

(** X10. POST /events reads five fields of the payload and nothing
    else: two objects that agree on title, description, image_url, date
    and location get the same response and leave the same world, so
    unknown keys are ignored. *)
Theorem create_event_reads_five_fields :
  forall w items items',
    insert_args items = insert_args items' ->
    create_event (JsonBody (JObj items)) w = create_event (JsonBody (JObj items')) w.
Proof.
  intros w items items' H. unfold insert_args in H.
  injection H as H1 H2 H3 H4 H5.
  assert (Hl : lacks_required (JObj items') = lacks_required (JObj items)).
  { unfold lacks_required, field. rewrite H1, H4. reflexivity. }
  destruct (lacks_required (JObj items)) eqn:L.
  - rewrite (create_event_rejects_object w (JsonBody (JObj items)) items
               (dict_payload items) L).
    rewrite (create_event_rejects_object w (JsonBody (JObj items')) items'
               (dict_payload items') Hl).
    reflexivity.
  - destruct (valid_payload_shape _ L) as [i0 [E [Ht [Hd _]]]]. injection E as <-.
    destruct (valid_payload_shape _ Hl) as [i1 [E [Ht' [Hd' _]]]]. injection E as <-.
    rewrite (create_event_accepts w (JsonBody (JObj items)) items (dict_payload items) Ht Hd).
    rewrite (create_event_accepts w (JsonBody (JObj items')) items' (dict_payload items')
               Ht' Hd').
    unfold insert_data_into_db. cbn [py_get].
    rewrite H1, H2, H3, H4, H5. reflexivity.
Qed.

Lemma create_event_reads_five_fields_witness :
  create_event (JsonBody launch_payload) fresh_world
  = create_event (JsonBody (JObj [("title", JStr "Launch"); ("speaker", JStr "Ada");
                                  ("date", JStr "2024-07-01")])) fresh_world.
Proof.
  apply (create_event_reads_five_fields fresh_world
           [("title", JStr "Launch"); ("date", JStr "2024-07-01")]
           [("title", JStr "Launch"); ("speaker", JStr "Ada");
            ("date", JStr "2024-07-01")]).
  reflexivity.
Defined.

(** ** What the client is told when a connection is refused *)

Lemma operational_connect_error f :
  fault_cls f = OperationalError ->
  connect_error f
  = mk_exn ConnectionError ("Failed to connect to the database: " ++ fault_msg f).
Proof. intros H. unfold connect_error. rewrite H. reflexivity. Qed.

(** X11. What the client is told about a refused connection depends on
    which of the two attempts of the schema step is refused: when the
    driver refuses the first (line 87) with an OperationalError, the
    reading routes answer 500 with detail "Failed to connect to the
    database: " and the driver's text; when it grants the first and
    refuses the second (line 89), the detail is that text behind
    "Table creation failed: ". *)
Theorem refused_connection_is_reported :
  forall w f rest,
    missing_vars (environ w) = [] ->
    fault_cls f = OperationalError ->
    (schedule w = Some f :: rest ->
       fst (list_events w)
       = Returned (error_response "During events retrieval"
                     (mk_exn ConnectionError
                        ("Failed to connect to the database: " ++ fault_msg f))) /\
       fst (get_data w)
       = Returned (error_response "During data retrieval"
                     (mk_exn ConnectionError
                        ("Failed to connect to the database: " ++ fault_msg f)))) /\
    (schedule w = None :: Some f :: rest ->
       fst (list_events w)
       = Returned (error_response "During events retrieval"
                     (mk_exn RuntimeError
                        ("Table creation failed: Failed to connect to the database: "
                         ++ fault_msg f))) /\
       fst (get_data w)
       = Returned (error_response "During data retrieval"
                     (mk_exn RuntimeError
                        ("Table creation failed: Failed to connect to the database: "
                         ++ fault_msg f)))).
Proof.
  intros w f rest Hm Hf. split; intros Hs.
  - pose proof (create_db_table_first_refused w f Hm (scheduled_head w _ _ Hs)) as E1.
    rewrite (operational_connect_error f Hf) in E1.
    assert (E : fetch_data_from_db w
                = (Raised (mk_exn ConnectionError
                             ("Failed to connect to the database: " ++ fault_msg f)),
                   after_refusal w)).
    { unfold fetch_data_from_db. apply bind_raised. exact E1. }
    unfold list_events, get_data.
    rewrite !(try_except_raised _ _ _ _ _ (bind_raised _ _ _ _ _ E)).
    split; reflexivity.
  - pose proof (create_db_table_second_refused w f Hm (scheduled_head w _ _ Hs)
                  (scheduled_second w _ _ _ Hs)) as E1.
    rewrite (operational_connect_error f Hf) in E1.
    assert (E : fetch_data_from_db w
                = (Raised (mk_exn RuntimeError
                             ("Table creation failed: Failed to connect to the database: "
                              ++ fault_msg f)), after_second_refusal w)).
    { unfold fetch_data_from_db. apply bind_raised. exact E1. }
    unfold list_events, get_data.
    rewrite !(try_except_raised _ _ _ _ _ (bind_raised _ _ _ _ _ E)).
    split; reflexivity.
Qed.

Lemma refused_connection_is_reported_witness :
  fst (list_events flaky_world)
  = Returned (error_response "During events retrieval"
                (mk_exn RuntimeError
                   "Table creation failed: Failed to connect to the database: (2003, 'Cannot connect to MySQL server')")).
Proof.
  apply (proj2 (refused_connection_is_reported flaky_world
                  (mk_fault OperationalError "(2003, 'Cannot connect to MySQL server')" false)
                  [] eq_refl eq_refl) eq_refl).
Defined.

(** ** Incomplete configuration, for every request *)

(** X12. While a required variable is absent or empty, no route calls
    the driver: after GET /events, GET /data or any POST /events the
    trace of driver calls, the open connections and the database are
    those of before, and the reading routes and every POST that passes
    validation answer 500. *)
Theorem incomplete_configuration_never_reaches_driver :
  forall w,
    missing_vars (environ w) <> [] ->
    (status_of (list_events w) = Some 500 /\
     trace (snd (list_events w)) = trace w /\
     open_conns (snd (list_events w)) = open_conns w /\
     db (snd (list_events w)) = db w) /\
    (status_of (get_data w) = Some 500 /\
     trace (snd (get_data w)) = trace w /\
     open_conns (snd (get_data w)) = open_conns w /\
     db (snd (get_data w)) = db w) /\
    (forall b,
       (lacks_required (payload_of b) = false -> status_of (create_event b w) = Some 500) /\
       trace (snd (create_event b w)) = trace w /\
       open_conns (snd (create_event b w)) = open_conns w /\
       db (snd (create_event b w)) = db w).
Proof.
  intros w Hm.
  pose proof (fetch_data_from_db_missing w Hm) as E.
  split; [ | split].
  - unfold list_events.
    rewrite (try_except_raised _ _ _ _ _ (bind_raised _ _ _ _ _ E)).
    repeat split; reflexivity.
  - unfold get_data.
    rewrite (try_except_raised _ _ _ _ _ (bind_raised _ _ _ _ _ E)).
    repeat split; reflexivity.
  - intros b.
    destruct (payload_cases b) as [[e [He _]] | [[items Hp] | [Hd [Hd' [Ht Hp]]]]].
    + rewrite (create_event_parser_raises w b e He).
      repeat split; reflexivity.
    + destruct (lacks_required (JObj items)) eqn:Hl.
      * rewrite (create_event_rejects_object w b items Hp Hl).
        rewrite Hp, Hl. repeat split; try reflexivity. discriminate.
      * destruct (valid_payload_shape _ Hl) as [items' [E' [Htt [Htd Hty]]]].
        injection E' as <-.
        rewrite (create_event_accepts w b items Hp Htt Htd).
        unfold insert_data_into_db.
        raised (create_db_table_missing w Hm).
        repeat split; reflexivity.
    + rewrite (create_event_rejects_non_dict w b Hd' Ht).
      repeat split; reflexivity.
Qed.

Lemma incomplete_configuration_never_reaches_driver_witness :
  status_of (get_data partial_world) = Some 500 /\
  trace (snd (get_data partial_world)) = trace partial_world.
Proof.
  destruct (incomplete_configuration_never_reaches_driver partial_world)
    as [_ [[Hs [Ht _]] _]].
  - discriminate.
  - split; assumption.
Defined.
